(** * HLK-LD2451 radar protocol engine (Radar.py)

    A shallow embedding of the protocol part of [LD2451_GUI]: the frame
    synchronizer inside [serial_reader], the two frame parsers, and the
    configuration command senders, followed by the properties proved about
    them.

    Python [bytes] values are lists of [Byte.byte]; Python integers are [Z];
    [bytes.find] returns [-1] when nothing is found, as in Python.  The
    methods of the class read and write the object's fields, put items on
    [data_queue], talk to the serial port and open message boxes: they are
    functions in a state-and-exception monad over the record [gui], whose
    field [trace] keeps every observable effect in the order it happened. *)

From Stdlib Require Import String Ascii Strings.Byte DecimalString.
From Stdlib Require Import List ZArith Lia Bool Arith Sorted.
Import ListNotations.

Local Open Scope Z_scope.

(** ** Bytes *)

Definition bytes := list byte.

(** [b] read as a Python integer, as indexing a [bytes] object gives it. *)
Definition byte_val (b : byte) : Z := Z.of_N (Byte.to_N b).

(** [len(b)] *)
Definition len (b : bytes) : Z := Z.of_nat (length b).

Definition byte_eqb (a b : byte) : bool := Byte.eqb a b.

(** [b.startswith(prefix)] *)
Fixpoint startswith (prefix b : bytes) : bool :=
  match prefix, b with
  | [], _ => true
  | _ :: _, [] => false
  | p :: prefix', x :: b' => byte_eqb p x && startswith prefix' b'
  end.

(** [b.endswith(suffix)] *)
Definition endswith (suffix b : bytes) : bool :=
  (length suffix <=? length b)%nat
  && startswith suffix (skipn (length b - length suffix) b).

(** The scan of [bytes.find]: [l] is the part of the buffer from index [i]
    on; the lowest index at which [sub] starts, or [-1]. *)
Fixpoint find_from (sub l : bytes) (i : nat) : Z :=
  if startswith sub l then Z.of_nat i
  else match l with
       | [] => -1
       | _ :: l' => find_from sub l' (S i)
       end.

(** [b.find(sub, start)] for [start >= 0] *)
Definition find (sub b : bytes) (start : Z) : Z :=
  if len b <? start then -1
  else find_from sub (skipn (Z.to_nat start) b) (Z.to_nat start).

(** [b[start:stop]] for [0 <= start] and [0 <= stop] *)
Definition slice (b : bytes) (start stop : Z) : bytes :=
  firstn (Z.to_nat stop - Z.to_nat start) (skipn (Z.to_nat start) b).

(** [b[start:]]; a negative [start] counts from the end of [b]. *)
Definition slice_from (b : bytes) (start : Z) : bytes :=
  if start <? 0 then skipn (length b - Z.to_nat (- start)) b
  else skipn (Z.to_nat start) b.

(** ** Constants *)

Definition TARGET_FRAME_HEADER : bytes := [xf4; xf3; xf2; xf1].
Definition TARGET_FRAME_TAIL : bytes := [xf8; xf7; xf6; xf5].

Definition CONFIG_HEADER : bytes := [xfd; xfc; xfb; xfa].
Definition CONFIG_TAIL : bytes := [x04; x03; x02; x01].
Definition CONFIG_CMD_ENABLE : Z := 0x00FF.
Definition CONFIG_CMD_DISABLE : Z := 0x00FE.
Definition CONFIG_CMD_ENABLE_ACK : Z := 0x01FF.
Definition CONFIG_CMD_DISABLE_ACK : Z := 0x01FE.

Definition CONFIG_CMD_SET_TARGET_PARAMS : Z := 0x0002.
Definition CONFIG_CMD_SET_SENSITIVITY : Z := 0x0003.
Definition CONFIG_CMD_RESTART : Z := 0x00A3.

Definition CONFIG_CMD_READ_TARGET_PARAMS : Z := 0x0012.
Definition CONFIG_CMD_READ_SENSITIVITY : Z := 0x0013.

Definition CONFIG_ACK_TARGET_PARAMS : Z := 0x0112.
Definition CONFIG_ACK_SENSITIVITY : Z := 0x0113.

Definition CONFIG_CMD_READ_FIRMWARE_VERSION : Z := 0x00A0.
Definition CONFIG_ACK_FIRMWARE_VERSION : Z := 0x01A0.

(** ** Text formatting *)

Local Open Scope string_scope.

(** One uppercase hexadecimal digit. *)
Definition hex_digit (d : Z) : string :=
  match d with
  | 0%Z => "0" | 1%Z => "1" | 2%Z => "2" | 3%Z => "3"
  | 4%Z => "4" | 5%Z => "5" | 6%Z => "6" | 7%Z => "7"
  | 8%Z => "8" | 9%Z => "9" | 10%Z => "A" | 11%Z => "B"
  | 12%Z => "C" | 13%Z => "D" | 14%Z => "E" | _ => "F"
  end.

(** [f'{b:02X}'] for [0 <= b < 256] *)
Definition format_02X (b : Z) : string :=
  hex_digit (b / 16) ++ hex_digit (b mod 16).

(** [f'{cmd:04X}'] for [0 <= cmd < 65536] *)
Definition format_04X (cmd : Z) : string :=
  hex_digit (cmd / 4096) ++ hex_digit (cmd / 256 mod 16)
  ++ hex_digit (cmd / 16 mod 16) ++ hex_digit (cmd mod 16).

(** [f'{n}'] for an integer *)
Definition format_int (n : Z) : string :=
  NilZero.string_of_int (Z.to_int n).

(** [format_hex]: the bytes in hexadecimal, separated by spaces. *)
Definition format_hex (data : bytes) : string :=
  String.concat " " (map (fun b => format_02X (byte_val b)) data).

Local Close Scope string_scope.

(** ** Exceptions and the few library calls that can raise *)

Inductive result (A : Type) : Type :=
| Returned (a : A)
| Raised (e : string).
Arguments Returned {A} a.
Arguments Raised {A} e.

Definition result_bind {A B} (r : result A) (k : A -> result B) : result B :=
  match r with
  | Returned a => k a
  | Raised e => Raised e
  end.

(** [b[i]]: an integer, or [IndexError] outside the object. *)
Definition index (b : bytes) (i : Z) : result Z :=
  let j := if i <? 0 then len b + i else i in
  if j <? 0 then Raised "index out of range"
  else match nth_error b (Z.to_nat j) with
       | Some x => Returned (byte_val x)
       | None => Raised "index out of range"
       end.

(** The byte of value [v], for [0 <= v < 256]. *)
Definition byte_of (v : Z) : byte :=
  match Byte.of_N (Z.to_N v) with
  | Some b => b
  | None => x00
  end.

(** [struct.pack('<H', v)] *)
Definition pack_H (v : Z) : result bytes :=
  if (0 <=? v) && (v <=? 65535)
  then Returned [byte_of (v mod 256); byte_of (v / 256)]
  else Raised "ushort format requires 0 <= number <= 65535".

(** [struct.unpack('<H', b)[0]] *)
Definition unpack_H (b : bytes) : result Z :=
  match b with
  | [lo; hi] => Returned (byte_val lo + 256 * byte_val hi)
  | _ => Raised "unpack requires a buffer of 2 bytes"
  end.

(** [struct.unpack('<BBBB', b)] *)
Definition unpack_BBBB (b : bytes) : result (Z * Z * Z * Z) :=
  match b with
  | [b0; b1; b2; b3] =>
      Returned (byte_val b0, byte_val b1, byte_val b2, byte_val b3)
  | _ => Raised "unpack requires a buffer of 4 bytes"
  end.

(** ** What goes on the queue *)

(** The two floating-point coordinates of a target are kept as the
    expressions the code evaluates, [distance_m * math.sin(angle_rad)] and
    [distance_m * math.cos(angle_rad)] with
    [angle_rad = math.radians(angle_deg)]; no claim depends on their value. *)
Inductive pyfloat : Type :=
| times_sin_radians (distance_m angle_deg : Z)
| times_cos_radians (distance_m angle_deg : Z).

(** The dictionary appended to [targets] for one target. *)
Record target : Type := {
  x_m : pyfloat;
  y_m : pyfloat;
  speed_kmh : Z;
  distance_m : Z;
  angle_deg : Z;
  snr : Z
}.

(** The tuples [(msg_type, data)] put on [data_queue]. *)
Inductive queue_item : Type :=
| targets (batch : list target)
| config_target_params (dist direction speed delay : Z)
| config_sensitivity (count snr : Z)
| config_mode_enabled
| config_mode_disabled
| config_firmware_version (firmware_version : Z)
| log (log_type message : string)
| disconnect.

(** ** The object state and its effects *)

(** What one call to the port's [write] or [flush] does. *)
Inductive io_outcome : Type :=
| io_ok
| io_raises (e : string).

(** Everything a method does that can be seen from outside, in order.
    Sleeps are in milliseconds. *)
Inductive effect : Type :=
| QueuePut (item : queue_item)
| PortWrite (frame : bytes)
| PortFlush
| Sleep (ms : Z)
| ShowWarning (title message : string)
| ShowError (title message : string).

(** The fields of [LD2451_GUI] the protocol code uses.  [serial_port] is
    [None] before the first connection; an open port is the list of the
    outcomes of the calls still to be made on it, in order (once the list is
    used up every call succeeds). *)
Record gui : Type := {
  is_connected : bool;
  serial_port : option (list io_outcome);
  config_mode : bool;
  trace : list effect
}.

Definition M (A : Type) : Type := gui -> result A * gui.

Definition ret {A} (a : A) : M A := fun g => (Returned a, g).

Definition bind {A B} (c : M A) (k : A -> M B) : M B :=
  fun g =>
    match c g with
    | (Returned a, g') => k a g'
    | (Raised e, g') => (Raised e, g')
    end.

(** A pure computation that may raise, run inside a method. *)
Definition lift {A} (r : result A) : M A := fun g => (r, g).

(** [try: body  except Exception as e: handler(e)] *)
Definition try_except {A} (body : M A) (handler : string -> M A) : M A :=
  fun g =>
    match body g with
    | (Returned a, g') => (Returned a, g')
    | (Raised e, g') => handler e g'
    end.

Declare Scope gui_scope.
Delimit Scope gui_scope with gui.
Notation "x <- c1 ;; c2" := (bind c1 (fun x => c2))
  (at level 61, c1 at next level, right associativity) : gui_scope.
Notation "' pat <- c1 ;; c2" :=
  (bind c1 (fun x => match x with pat => c2 end))
  (at level 61, pat pattern, c1 at next level, right associativity) : gui_scope.
Notation "c1 ;; c2" := (bind c1 (fun _ => c2))
  (at level 61, right associativity) : gui_scope.
Local Open Scope gui_scope.

(** The object after the effects [es] have happened. *)
Definition record (g : gui) (es : list effect) : gui :=
  {| is_connected := is_connected g; serial_port := serial_port g;
     config_mode := config_mode g; trace := trace g ++ es |}.

Definition emit (e : effect) : M unit :=
  fun g => (Returned tt, record g [e]).

(** [self.data_queue.put(item)] *)
Definition put (item : queue_item) : M unit := emit (QueuePut item).

(** [time.sleep] *)
Definition sleep (ms : Z) : M unit := emit (Sleep ms).

Definition showwarning (title message : string) : M unit :=
  emit (ShowWarning title message).

Definition showerror (title message : string) : M unit :=
  emit (ShowError title message).

(** [self.config_mode = v] *)
Definition set_config_mode (v : bool) : M unit :=
  fun g =>
    (Returned tt,
     {| is_connected := is_connected g; serial_port := serial_port g;
        config_mode := v; trace := trace g |}).

(** One call on [self.serial_port]: it is recorded, and the port answers
    with its next outcome.  On [None] the attribute lookup itself raises. *)
Definition port_call (e : effect) : M unit :=
  fun g =>
    match serial_port g with
    | None => (Raised "'NoneType' object has no attribute", g)
    | Some outcomes =>
        let g' := {| is_connected := is_connected g;
                     serial_port := Some (tl outcomes);
                     config_mode := config_mode g;
                     trace := trace g ++ [e] |} in
        match outcomes with
        | io_raises err :: _ => (Raised err, g')
        | _ => (Returned tt, g')
        end
    end.

(** [self.serial_port.write(frame)] *)
Definition port_write (frame : bytes) : M unit := port_call (PortWrite frame).

(** [self.serial_port.flush()] *)
Definition port_flush : M unit := port_call PortFlush.

(** The items put on [data_queue], oldest first. *)
Fixpoint queue_of (t : list effect) : list queue_item :=
  match t with
  | [] => []
  | QueuePut item :: t' => item :: queue_of t'
  | _ :: t' => queue_of t'
  end.

Definition data_queue (g : gui) : list queue_item := queue_of (trace g).

(** The frames handed to the port's [write], oldest first. *)
Fixpoint writes_of (t : list effect) : list bytes :=
  match t with
  | [] => []
  | PortWrite frame :: t' => frame :: writes_of t'
  | _ :: t' => writes_of t'
  end.

(** ** parse_target_frame *)

(** The [for i in range(num_targets)] loop: [n] rounds are left, [offset]
    and [batch] are the loop's variables.  The first test is the [break]. *)
Fixpoint target_loop (frame : bytes) (n : nat) (offset : Z)
    (batch : list target) : result (list target) :=
  match n with
  | O => Returned batch
  | S n' =>
      if offset + 5 >? len frame - 4 then Returned batch
      else
        result_bind (index frame offset) (fun angle_raw =>
        result_bind (index frame (offset + 1)) (fun dist_raw =>
        result_bind (index frame (offset + 2)) (fun speed_h =>
        result_bind (index frame (offset + 3)) (fun speed_l =>
        let speed_raw := Z.lor (Z.shiftl speed_h 8) speed_l in
        result_bind (index frame (offset + 4)) (fun snr =>
        let angle_deg := angle_raw - 0x80 in
        let distance_m := dist_raw in
        let speed_kmh := Z.land speed_raw 0xFF in
        let speed_kmh :=
          if Z.shiftr speed_raw 8 =? 1 then - speed_kmh else speed_kmh in
        let x_m := times_sin_radians distance_m angle_deg in
        let y_m := times_cos_radians distance_m angle_deg in
        target_loop frame n' (offset + 5)
          (batch ++ [ {| x_m := x_m; y_m := y_m; speed_kmh := speed_kmh;
                         distance_m := distance_m; angle_deg := angle_deg;
                         snr := snr |} ]))))))
  end.

Definition parse_target_frame (frame : bytes) : M unit :=
  try_except
    (if negb (startswith TARGET_FRAME_HEADER frame)
        || negb (endswith TARGET_FRAME_TAIL frame)
     then put (log "error" "Invalid target frame format.")
     else if len frame <? 12 then ret tt
     else
       b4 <- lift (index frame 4) ;;
       b5 <- lift (index frame 5) ;;
       let data_len := b4 + Z.shiftl b5 8 in
       num_targets <- lift (index frame 6) ;;
       batch <- lift (target_loop frame (Z.to_nat num_targets) 8 []) ;;
       put (targets batch))
    (fun e => put (log "error" ("Error parsing target frame: " ++ e))).

(** ** parse_config_frame *)

Definition parse_config_frame (frame : bytes) : M unit :=
  try_except
    (if negb (startswith CONFIG_HEADER frame)
        || negb (endswith CONFIG_TAIL frame)
     then put (log "error" "Invalid config frame format.")
     else if len frame <? 12 then ret tt
     else
       cmd <- lift (unpack_H (slice frame 6 8)) ;;
       if (cmd =? CONFIG_ACK_TARGET_PARAMS) && (len frame >=? 16) then
         '(dist, direction, speed, delay) <-
            lift (unpack_BBBB (slice frame 10 14)) ;;
         put (config_target_params dist direction speed delay) ;;
         put (log "info"
                ("Received target params: dist=" ++ format_int dist
                 ++ "m, dir=" ++ format_int direction
                 ++ ", speed=" ++ format_int speed
                 ++ "km/h, delay=" ++ format_int delay ++ "s"))
       else if (cmd =? CONFIG_ACK_SENSITIVITY) && (len frame >=? 16) then
         '(count, snr, _, _) <- lift (unpack_BBBB (slice frame 10 14)) ;;
         put (config_sensitivity count snr) ;;
         put (log "info"
                ("Received sensitivity: count=" ++ format_int count
                 ++ ", snr=" ++ format_int snr))
       else if cmd =? CONFIG_CMD_ENABLE_ACK then
         set_config_mode true ;;
         put config_mode_enabled ;;
         put (log "info" "Configuration mode enabled")
       else if cmd =? CONFIG_CMD_DISABLE_ACK then
         set_config_mode false ;;
         put config_mode_disabled ;;
         put (log "info" "Configuration mode disabled")
       else if cmd =? CONFIG_ACK_FIRMWARE_VERSION then
         firmware_version <- lift (unpack_H (slice frame 10 12)) ;;
         put (config_firmware_version firmware_version) ;;
         put (log "info"
                ("Received firmware version: " ++ format_int firmware_version))
       else
         put (log "info" ("Unknown config response: 0x" ++ format_04X cmd)))
    (fun e => put (log "error" ("Error parsing config frame: " ++ e))).

(** ** serial_reader: the frame extraction loop *)

(** How one round of the inner [while True] ends: with the next round on the
    shortened buffer, or with [break]. *)
Inductive loop_ctl : Type :=
| Continue (buffer : bytes)
| Break (buffer : bytes).

(** The body of the inner [while True] loop of [serial_reader]. *)
Definition reader_step (buffer : bytes) : M loop_ctl :=
  let target_start := find TARGET_FRAME_HEADER buffer 0 in
  let config_start := find CONFIG_HEADER buffer 0 in
  if negb (target_start =? -1)
     && ((config_start =? -1) || (target_start <? config_start)) then
    let start := target_start in
    let tail := TARGET_FRAME_TAIL in
    let end_ := find tail buffer (start + len TARGET_FRAME_HEADER) in
    if negb (end_ =? -1) then
      let frame := slice buffer start (end_ + len tail) in
      put (log "recv" ("RECEIVED (Target): " ++ format_hex frame)) ;;
      parse_target_frame frame ;;
      ret (Continue (slice_from buffer (end_ + len tail)))
    else ret (Break buffer)
  else if negb (config_start =? -1)
          && ((target_start =? -1) || (config_start <? target_start)) then
    let start := config_start in
    let tail := CONFIG_TAIL in
    let end_ := find tail buffer (start + len CONFIG_HEADER) in
    if negb (end_ =? -1) then
      let frame := slice buffer start (end_ + len tail) in
      put (log "recv" ("RECEIVED (Config): " ++ format_hex frame)) ;;
      parse_config_frame frame ;;
      ret (Continue (slice_from buffer (end_ + len tail)))
    else ret (Break buffer)
  else
    if len buffer >? 256 then
      put (log "error" "Buffer overflow, flushing old data...") ;;
      ret (Break (slice_from buffer (-256)))
    else ret (Break buffer).

(** The inner [while True] loop, at most [fuel] rounds: the buffer it leaves,
    or [None] when [fuel] rounds were not enough. *)
Fixpoint reader_loop (fuel : nat) (buffer : bytes) : M (option bytes) :=
  match fuel with
  | O => ret None
  | S fuel' =>
      c <- reader_step buffer ;;
      match c with
      | Continue buffer' => reader_loop fuel' buffer'
      | Break buffer' => ret (Some buffer')
      end
  end.

(** One pass of the synchronizer over the buffer: every round that goes on
    removes at least eight bytes, so [length buffer] rounds and one more to
    stop are enough. *)
Definition reader_pass (buffer : bytes) : M (option bytes) :=
  reader_loop (S (length buffer)) buffer.

(** ** Sending commands *)

Definition serial_write_and_log (frame : bytes) : M bool :=
  fun g =>
    if negb (is_connected g)
       || negb (match serial_port g with Some _ => true | None => false end)
    then (put (log "error" "Not connected - cannot send data") ;;
          ret false) g
    else
      try_except
        (port_write frame ;;
         port_flush ;;
         put (log "sent" ("SENT: " ++ format_hex frame)) ;;
         ret true)
        (fun e =>
           put (log "error" ("Serial write error: " ++ e)) ;;
           ret false) g.

Definition enable_config_mode : M unit :=
  fun g =>
    if negb (is_connected g)
    then showwarning "Warning" "Not connected to device." g
    else
      (p <- lift (pack_H CONFIG_CMD_ENABLE) ;;
       let enable_frame := CONFIG_HEADER ++ [x02; x00] ++ p ++ CONFIG_TAIL in
       ok <- serial_write_and_log enable_frame ;;
       if ok then put (log "info" "Enabling configuration mode...")
       else ret tt) g.

Definition disable_config_mode : M unit :=
  fun g =>
    if negb (is_connected g)
    then showwarning "Warning" "Not connected to device." g
    else
      (p <- lift (pack_H CONFIG_CMD_DISABLE) ;;
       let disable_frame := CONFIG_HEADER ++ [x02; x00] ++ p ++ CONFIG_TAIL in
       ok <- serial_write_and_log disable_frame ;;
       if ok then put (log "info" "Disabling configuration mode...")
       else ret tt) g.

Definition send_write_config_command (command_word : Z)
    (value_bytes : bytes) : M bool :=
  fun g =>
    if negb (is_connected g)
    then (showwarning "Warning" "Not connected to the device." ;;
          ret false) g
    else
      try_except
        (put (log "info" "Starting configuration sequence...") ;;
         p <- lift (pack_H CONFIG_CMD_ENABLE) ;;
         let enable_frame :=
           CONFIG_HEADER ++ [x02; x00] ++ p ++ CONFIG_TAIL in
         ok <- serial_write_and_log enable_frame ;;
         if negb ok then ret false else
         sleep 200 ;;
         let length := len value_bytes + 2 in
         cw <- lift (pack_H command_word) ;;
         let packet := cw ++ value_bytes in
         lp <- lift (pack_H length) ;;
         let main_frame := CONFIG_HEADER ++ lp ++ packet ++ CONFIG_TAIL in
         ok <- serial_write_and_log main_frame ;;
         if negb ok then ret false else
         sleep 200 ;;
         p <- lift (pack_H CONFIG_CMD_DISABLE) ;;
         let disable_frame :=
           CONFIG_HEADER ++ [x02; x00] ++ p ++ CONFIG_TAIL in
         ok <- serial_write_and_log disable_frame ;;
         if negb ok then ret false else
         put (log "info" "Configuration command completed") ;;
         ret true)
        (fun e =>
           put (log "error" ("Failed to send config command: " ++ e)) ;;
           showerror "Error" ("Failed to send command: " ++ e) ;;
           ret false) g.

Definition send_read_command (command_word : Z) : M bool :=
  fun g =>
    if negb (is_connected g)
    then (showwarning "Warning" "Not connected to device." ;; ret false) g
    else
      try_except
        (let length := 0x0002 in
         lp <- lift (pack_H length) ;;
         cw <- lift (pack_H command_word) ;;
         let frame := CONFIG_HEADER ++ lp ++ cw ++ CONFIG_TAIL in
         ok <- serial_write_and_log frame ;;
         if ok then
           put (log "info"
                  ("Sent read command: 0x" ++ format_04X command_word)) ;;
           ret true
         else ret false)
        (fun e =>
           put (log "error" ("Failed to send read command: " ++ e)) ;;
           ret false) g.

(** ** Vocabulary of the statements *)

(** [sub] starts at index [i] of [b]. *)
Definition occurs_at (sub b : bytes) (i : nat) : Prop :=
  startswith sub (skipn i b) = true.

(** [i] is the lowest index not below [start] at which [sub] starts. *)
Definition first_at (sub b : bytes) (start i : nat) : Prop :=
  (start <= i)%nat /\ occurs_at sub b i /\
  forall j, (start <= j < i)%nat -> ~ occurs_at sub b j.

(** [sub] starts nowhere in [b] at or after [start]. *)
Definition absent_from (sub b : bytes) (start : nat) : Prop :=
  forall j, (start <= j)%nat -> ~ occurs_at sub b j.

(** The byte at offset [i] of a frame, as an unsigned integer. *)
Definition u8_at (frame : bytes) (i : nat) : Z := byte_val (nth i frame x00).

(** The 16-bit little-endian word at offsets [i] and [i + 1]. *)
Definition u16le_at (frame : bytes) (i : nat) : Z :=
  u8_at frame i + 256 * u8_at frame (S i).

(** An error record is among the effects. *)
Definition reports_error (es : list effect) : Prop :=
  exists message, In (QueuePut (log "error" message)) es.

(** The decoding rules as the specification words them, for the five-byte
    record at [offset]: the angle is the raw byte less 128, the distance is
    the raw byte, the speed is the low speed byte, negated exactly when the
    high speed byte is 1. *)
Definition spec_reading (frame : bytes) (offset : nat) : target :=
  let angle := u8_at frame offset - 128 in
  let dist := u8_at frame (offset + 1) in
  {| x_m := times_sin_radians dist angle;
     y_m := times_cos_radians dist angle;
     speed_kmh := if u8_at frame (offset + 2) =? 1
                  then - u8_at frame (offset + 3)
                  else u8_at frame (offset + 3);
     distance_m := dist;
     angle_deg := angle;
     snr := u8_at frame (offset + 4) |}.

(** How many complete five-byte records lie between offset 8 and the last
    four bytes of a frame. *)
Definition complete_records (frame : bytes) : nat :=
  ((length frame - 12) / 5)%nat.

(** The three frames of a write command, as the bytes on the wire. *)
Definition enable_frame : bytes :=
  CONFIG_HEADER ++ [x02; x00; xff; x00] ++ CONFIG_TAIL.

Definition disable_frame : bytes :=
  CONFIG_HEADER ++ [x02; x00; xfe; x00] ++ CONFIG_TAIL.

Definition write_frame (command_word : Z) (value_bytes : bytes) : bytes :=
  CONFIG_HEADER
  ++ [byte_of ((len value_bytes + 2) mod 256);
      byte_of ((len value_bytes + 2) / 256)]
  ++ [byte_of (command_word mod 256); byte_of (command_word / 256)]
  ++ value_bytes ++ CONFIG_TAIL.

(** The reading of claim C9: in a run of effects, every write on the port
    has a record of type sent before it. *)
Definition sent_logged_before_write (es : list effect) : Prop :=
  forall pre frame post,
    es = pre ++ PortWrite frame :: post ->
    exists message, In (QueuePut (log "sent" message)) pre.

(** The two frame families that share the buffer. *)
Inductive family : Type :=
| Target
| Config.

Definition header_of (f : family) : bytes :=
  match f with
  | Target => TARGET_FRAME_HEADER
  | Config => CONFIG_HEADER
  end.

Definition tail_of (f : family) : bytes :=
  match f with
  | Target => TARGET_FRAME_TAIL
  | Config => CONFIG_TAIL
  end.

Definition other (f : family) : family :=
  match f with
  | Target => Config
  | Config => Target
  end.

(** The parser [serial_reader] calls for a frame of family [f]. *)
Definition parse_frame (f : family) : bytes -> M unit :=
  match f with
  | Target => parse_target_frame
  | Config => parse_config_frame
  end.

(** The record [serial_reader] puts on the queue for a frame it cut out. *)
Definition received (f : family) (frame : bytes) : queue_item :=
  match f with
  | Target => log "recv" ("RECEIVED (Target): " ++ format_hex frame)
  | Config => log "recv" ("RECEIVED (Config): " ++ format_hex frame)
  end.

(** What [serial_reader] does with a frame of family [f]. *)
Definition hand_over (f : family) (frame : bytes) : M unit :=
  put (received f frame) ;; parse_frame f frame.

(** A complete frame of family [f] lies in the buffer: the header starts at
    some offset and the tail starts at or after the end of that header. *)
Definition complete_frame (f : family) (buffer : bytes) : Prop :=
  exists i j,
    occurs_at (header_of f) buffer i
    /\ occurs_at (tail_of f) buffer j
    /\ (i + 4 <= j)%nat.

(** The header of family [f] is the earliest header in the buffer, at
    offset [s]: the other family's header is absent or starts later. *)
Definition earliest_header (buffer : bytes) (f : family) (s : nat) : Prop :=
  first_at (header_of f) buffer 0 s
  /\ (absent_from (header_of (other f)) buffer 0
      \/ exists s', first_at (header_of (other f)) buffer 0 s' /\ (s < s')%nat).

(** A span [(f, start, stop)] of the buffer cut out as a frame. *)
Definition span : Type := family * nat * nat.

Definition span_start (sp : span) : nat := snd (fst sp).
Definition span_stop (sp : span) : nat := snd sp.

(** The frame a span stands for, and the record of its reception. *)
Definition span_frame (buffer : bytes) (sp : span) : bytes :=
  slice buffer (Z.of_nat (span_start sp)) (Z.of_nat (span_stop sp)).

Definition span_received (buffer : bytes) (sp : span) : effect :=
  QueuePut (received (fst (fst sp)) (span_frame buffer sp)).

(** A span lies in the buffer, from a header of its family to the end of a
    tail of its family. *)
Definition span_ok (buffer : bytes) (sp : span) : Prop :=
  (span_start sp + 8 <= span_stop sp <= length buffer)%nat
  /\ occurs_at (header_of (fst (fst sp))) buffer (span_start sp)
  /\ occurs_at (tail_of (fst (fst sp))) buffer (span_stop sp - 4).

(** [x] starts before [y] and ends before [y] starts. *)
Definition span_before (x y : span) : Prop :=
  (span_start x < span_start y)%nat /\ (span_stop x <= span_start y)%nat.

(** The effects that record the reception of a frame. *)
Definition is_received (e : effect) : bool :=
  match e with
  | QueuePut (log log_type _) => String.eqb log_type "recv"
  | _ => false
  end.

Definition received_records (es : list effect) : list effect :=
  filter is_received es.

(** The record of a buffer overflow. *)
Definition overflow_record : effect :=
  QueuePut (log "error" "Buffer overflow, flushing old data...").

(** The span [sp] of a buffer, seen from [k] bytes earlier. *)
Definition shift (k : nat) (sp : span) : span :=
  (fst (fst sp), (k + span_start sp)%nat, (k + span_stop sp)%nat).

(** The run [loop] of the extraction loop on [buffer] ends normally, and the
    frames it hands over, in the order of their reception records, are the
    spans [spans] of the buffer: each from a header to the end of a tail of
    its family, each starting after the one before has ended. *)
Definition emits_in_order (loop : M (option bytes)) (buffer : bytes)
    (g : gui) (spans : list span) : Prop :=
  exists rest g' es,
    loop g = (Returned (Some rest), g')
    /\ trace g' = trace g ++ es
    /\ received_records es = map (span_received buffer) spans
    /\ Forall (span_ok buffer) spans
    /\ StronglySorted span_before spans.

(** ** serial_reader: the polling loop *)

(** What one look at the port gives: nothing waiting, the bytes that were
    waiting, or an exception of the port. *)
Inductive poll : Type :=
| no_data
| data (chunk : bytes)
| port_error (e : string).

(** [self.is_connected = v] *)
Definition set_is_connected (v : bool) : M unit :=
  fun g =>
    (Returned tt,
     {| is_connected := v; serial_port := serial_port g;
        config_mode := config_mode g; trace := trace g |}).

(** [if self.serial_port.in_waiting > 0: buffer += self.serial_port.read(...)] *)
Definition port_read (p : poll) (buffer : bytes) : M bytes :=
  fun g =>
    match serial_port g with
    | None => (Raised "'NoneType' object has no attribute", g)
    | Some _ =>
        match p with
        | no_data => (Returned buffer, g)
        | data chunk => (Returned (buffer ++ chunk), g)
        | port_error e => (Raised e, g)
        end
    end.

(** The outer loop of [serial_reader], one round per element of [polls];
    the end of the list stands for the connection flag having been cleared
    from outside.  The value is the local [buffer] when the loop ends. *)
Fixpoint serial_reader (polls : list poll) (buffer : bytes) : M bytes :=
  fun g =>
    if negb (is_connected g) then (Returned buffer, g)
    else
      match polls with
      | [] => (Returned buffer, g)
      | p :: polls' =>
          match (buffer1 <- port_read p buffer ;;
                 r <- reader_pass buffer1 ;;
                 sleep 10 ;;
                 ret (match r with Some b => b | None => buffer1 end)) g
          with
          | (Returned buffer', g') => serial_reader polls' buffer' g'
          | (Raised e, g') =>
              (put (log "error" ("Serial error: " ++ e)) ;;
               set_is_connected false ;;
               put disconnect ;;
               ret buffer) g'
          end
      end.

(** ** The configuration form *)

(** [d.get(key, default)] on a dictionary written as its list of items. *)
Fixpoint dict_get {K V : Type} (eqb : K -> K -> bool) (d : list (K * V))
    (key : K) (default : V) : V :=
  match d with
  | [] => default
  | (k, v) :: d' => if eqb k key then v else dict_get eqb d' key default
  end.

(** [direction_map] of [apply_detection_config] *)
Definition direction_codes : list (string * Z) :=
  [("Away Only"%string, 0x00); ("Approach Only"%string, 0x01);
   ("Approach & Away"%string, 0x02)].

(** [direction_map] of [update_gui_from_queue] *)
Definition direction_names : list (Z * string) :=
  [(0, "Away Only"%string); (1, "Approach Only"%string);
   (2, "Approach & Away"%string)].

(** [struct.pack('<BBBB', a, b, c, d)] *)
Definition pack_BBBB (a b c d : Z) : result bytes :=
  if (0 <=? a) && (a <=? 255) && (0 <=? b) && (b <=? 255)
     && (0 <=? c) && (c <=? 255) && (0 <=? d) && (d <=? 255)
  then Returned [byte_of a; byte_of b; byte_of c; byte_of d]
  else Raised "ubyte format requires 0 <= number <= 255".

(** The variables behind the widgets of the two parameter frames, and the
    text of the config mode indicator. *)
Record form : Type := {
  max_dist_val : Z;
  direction_var : string;
  min_speed_val : Z;
  target_delay_val : Z;
  trigger_count_val : Z;
  snr_val : Z;
  config_status_label : string
}.

(** [value] of [apply_detection_config]: the argument bytes made from the
    form. *)
Definition detection_value (w : form) : result bytes :=
  let dist_m := max_dist_val w in
  let dir_str := direction_var w in
  let speed_kmh := min_speed_val w in
  let delay_s := target_delay_val w in
  let dir_code := dict_get String.eqb direction_codes dir_str 0x02 in
  pack_BBBB dist_m dir_code speed_kmh delay_s.

(** [value] of [apply_sensitivity_config] *)
Definition sensitivity_value (w : form) : result bytes :=
  let trigger_count := trigger_count_val w in
  let snr := snr_val w in
  pack_BBBB trigger_count snr 0x00 0x00.

(** What [update_gui_from_queue] does to the form for one queue item.  The
    items of type targets, log and disconnect are handled by the canvas, the
    log window and the connection code: [None] here. *)
Definition update_gui_item (item : queue_item) (w : form) : option form :=
  match item with
  | config_target_params dist direction speed delay =>
      Some {| max_dist_val := dist;
              direction_var :=
                dict_get Z.eqb direction_names direction
                  "Approach & Away"%string;
              min_speed_val := speed;
              target_delay_val := delay;
              trigger_count_val := trigger_count_val w;
              snr_val := snr_val w;
              config_status_label := config_status_label w |}
  | config_sensitivity count snr =>
      Some {| max_dist_val := max_dist_val w;
              direction_var := direction_var w;
              min_speed_val := min_speed_val w;
              target_delay_val := target_delay_val w;
              trigger_count_val := count;
              snr_val := snr;
              config_status_label := config_status_label w |}
  | config_mode_enabled =>
      Some {| max_dist_val := max_dist_val w;
              direction_var := direction_var w;
              min_speed_val := min_speed_val w;
              target_delay_val := target_delay_val w;
              trigger_count_val := trigger_count_val w;
              snr_val := snr_val w;
              config_status_label := "Config Mode: ON" |}
  | config_mode_disabled =>
      Some {| max_dist_val := max_dist_val w;
              direction_var := direction_var w;
              min_speed_val := min_speed_val w;
              target_delay_val := target_delay_val w;
              trigger_count_val := trigger_count_val w;
              snr_val := snr_val w;
              config_status_label := "Config Mode: OFF" |}
  | config_firmware_version _ => Some w
  | targets _ | log _ _ | disconnect => None
  end.

(** ** More vocabulary *)

(** The effects that are error records. *)
Definition is_error (e : effect) : bool :=
  match e with
  | QueuePut (log log_type _) => String.eqb log_type "error"
  | _ => false
  end.



(** * Properties *)

(** ** Bytes and searching *)

Lemma byte_val_range (b : byte) : 0 <= byte_val b < 256.
Proof.
  unfold byte_val. pose proof (Byte.to_N_bounded b). lia.
Qed.

Lemma byte_eqb_eq (a b : byte) : byte_eqb a b = true <-> a = b.
Proof.
  unfold byte_eqb. split; intro H.
  - now apply Byte.byte_dec_bl.
  - subst. now apply Byte.byte_dec_lb.
Qed.

Lemma startswith_app (p r : bytes) : startswith p (p ++ r) = true.
Proof.
  induction p as [|x p IH]; simpl; auto.
  rewrite IH, andb_true_r. now apply byte_eqb_eq.
Qed.

Lemma startswith_inv (p b : bytes) :
  startswith p b = true -> exists r, b = p ++ r.
Proof.
  revert b; induction p as [|x p IH]; intros b H.
  - now exists b.
  - destruct b as [|y b]; simpl in H; [discriminate|].
    apply andb_true_iff in H as [Hxy Hp].
    apply byte_eqb_eq in Hxy; subst y.
    destruct (IH _ Hp) as [r ->]. now exists r.
Qed.

Lemma startswith_length (p b : bytes) :
  startswith p b = true -> (length p <= length b)%nat.
Proof.
  intros H. destruct (startswith_inv _ _ H) as [r ->].
  rewrite length_app. lia.
Qed.

Lemma occurs_at_bound (sub b : bytes) (i : nat) :
  sub <> [] -> occurs_at sub b i -> (i + length sub <= length b)%nat.
Proof.
  intros Hne H. apply startswith_length in H.
  rewrite length_skipn in H.
  destruct sub; [congruence|]. simpl in *. lia.
Qed.

Lemma find_from_spec (sub l : bytes) : forall i,
  (find_from sub l i = -1 /\ forall j, ~ occurs_at sub l j)
  \/ (exists j, find_from sub l i = Z.of_nat (i + j)
                /\ first_at sub l 0 j /\ (j <= length l)%nat).
Proof.
  induction l as [|x l IH]; intros i; simpl.
  - destruct (startswith sub []) eqn:E.
    + right. exists 0%nat. rewrite Nat.add_0_r.
      repeat split; auto; try lia.
    + left. split; auto. intros j. unfold occurs_at.
      rewrite skipn_nil. congruence.
  - destruct (startswith sub (x :: l)) eqn:E.
    + right. exists 0%nat. rewrite Nat.add_0_r.
      repeat split; auto; try lia.
    + destruct (IH (S i)) as [[H1 H2] | [j [H1 [[_ [H2 H3]] H4]]]].
      * left. split; auto. intros [|j]; unfold occurs_at; simpl.
        -- congruence.
        -- apply H2.
      * right. exists (S j). split; [rewrite H1; f_equal; lia|].
        split; [|lia]. split; [lia|]. split; [exact H2|].
        intros [|j'] Hj'; unfold occurs_at; simpl.
        -- congruence.
        -- apply H3. lia.
Qed.

Lemma occurs_at_skipn (sub b : bytes) (s j : nat) :
  occurs_at sub (skipn s b) j <-> occurs_at sub b (s + j).
Proof.
  unfold occurs_at. rewrite skipn_skipn.
  now replace (j + s)%nat with (s + j)%nat by lia.
Qed.

(** What [find] returns, for a pattern that is not empty. *)
Lemma find_spec (sub b : bytes) (start : nat) :
  sub <> [] ->
  (find sub b (Z.of_nat start) = -1 /\ absent_from sub b start)
  \/ (exists i, find sub b (Z.of_nat start) = Z.of_nat i
                /\ first_at sub b start i
                /\ (i + length sub <= length b)%nat).
Proof.
  intros Hne. unfold find, len. rewrite Nat2Z.id.
  destruct (Z.ltb_spec (Z.of_nat (length b)) (Z.of_nat start)) as [Hlt|Hle].
  - left. split; auto. intros j Hj Hocc.
    apply (occurs_at_bound _ _ _ Hne) in Hocc.
    destruct sub; [congruence|]. simpl in Hocc. lia.
  - destruct (find_from_spec sub (skipn start b) start)
      as [[H1 H2] | [j [H1 [[_ [H2 H3]] H4]]]].
    + left. split; auto. intros j Hj Hocc.
      apply (H2 (j - start)%nat). apply occurs_at_skipn.
      now replace (start + (j - start))%nat with j by lia.
    + right. exists (start + j)%nat. split; auto.
      assert (Hocc : occurs_at sub b (start + j)) by now apply occurs_at_skipn.
      split; [|now apply occurs_at_bound].
      split; [lia|]. split; auto.
      intros j' Hj' Hocc'. apply (H3 (j' - start)%nat); [lia|].
      apply occurs_at_skipn.
      now replace (start + (j' - start))%nat with j' by lia.
Qed.

Lemma first_at_unique (sub b : bytes) (start i j : nat) :
  first_at sub b start i -> first_at sub b start j -> i = j.
Proof.
  intros [Hi1 [Hi2 Hi3]] [Hj1 [Hj2 Hj3]].
  destruct (Nat.lt_trichotomy i j) as [H|[H|H]]; auto.
  - exfalso. apply (Hj3 i); auto.
  - exfalso. apply (Hi3 j); auto.
Qed.

(** ** Reading a frame *)

Lemma record_record (g : gui) (a b : list effect) :
  record (record g a) b = record g (a ++ b).
Proof.
  unfold record; simpl. now rewrite app_assoc.
Qed.

Lemma record_nil (g : gui) : record g [] = g.
Proof.
  destruct g; unfold record; simpl. now rewrite app_nil_r.
Qed.

Lemma skipn_nth_cons (b : bytes) : forall i,
  (i < length b)%nat -> skipn i b = nth i b x00 :: skipn (S i) b.
Proof.
  induction b as [|x b IH]; intros [|i] H; simpl in *; try lia; auto.
  apply IH. lia.
Qed.

Lemma index_in_range (frame : bytes) (i : Z) :
  0 <= i < len frame ->
  index frame i = Returned (u8_at frame (Z.to_nat i)).
Proof.
  unfold len, index, u8_at. intros H.
  destruct (Z.ltb_spec i 0) as [?|_]; [lia|].
  destruct (Z.ltb_spec i 0) as [?|_]; [lia|].
  rewrite (nth_error_nth' frame x00) by lia. reflexivity.
Qed.

Lemma slice_two (frame : bytes) (i : nat) :
  (i + 2 <= length frame)%nat ->
  slice frame (Z.of_nat i) (Z.of_nat (i + 2))
  = [nth i frame x00; nth (S i) frame x00].
Proof.
  intros H. unfold slice. rewrite !Nat2Z.id.
  replace (i + 2 - i)%nat with 2%nat by lia.
  rewrite (skipn_nth_cons frame i) by lia.
  rewrite (skipn_nth_cons frame (S i)) by lia. reflexivity.
Qed.

Lemma slice_four (frame : bytes) (i : nat) :
  (i + 4 <= length frame)%nat ->
  slice frame (Z.of_nat i) (Z.of_nat (i + 4))
  = [nth i frame x00; nth (S i) frame x00;
     nth (S (S i)) frame x00; nth (S (S (S i))) frame x00].
Proof.
  intros H. unfold slice. rewrite !Nat2Z.id.
  replace (i + 4 - i)%nat with 4%nat by lia.
  rewrite (skipn_nth_cons frame i) by lia.
  rewrite (skipn_nth_cons frame (S i)) by lia.
  rewrite (skipn_nth_cons frame (S (S i))) by lia.
  rewrite (skipn_nth_cons frame (S (S (S i)))) by lia. reflexivity.
Qed.

(** The command word the config parser reads is the little-endian word at
    offsets 6 and 7. *)
Lemma unpack_command_word (frame : bytes) :
  12 <= len frame ->
  unpack_H (slice frame 6 8) = Returned (u16le_at frame 6).
Proof.
  unfold len. intros H.
  change 6 with (Z.of_nat 6). change 8 with (Z.of_nat (6 + 2)).
  rewrite slice_two by lia. reflexivity.
Qed.

Lemma u8_at_range (frame : bytes) (i : nat) : 0 <= u8_at frame i < 256.
Proof. apply byte_val_range. Qed.

Lemma u16le_at_range (frame : bytes) (i : nat) :
  0 <= u16le_at frame i < 65536.
Proof.
  unfold u16le_at.
  pose proof (u8_at_range frame i). pose proof (u8_at_range frame (S i)).
  lia.
Qed.

(** ** Hexadecimal text determines the number *)

Lemma hex_digit_inj (a b : Z) :
  0 <= a < 16 -> 0 <= b < 16 -> hex_digit a = hex_digit b -> a = b.
Proof.
  intros Ha Hb.
  assert (Ea : a = 0 \/ a = 1 \/ a = 2 \/ a = 3 \/ a = 4 \/ a = 5 \/ a = 6
               \/ a = 7 \/ a = 8 \/ a = 9 \/ a = 10 \/ a = 11 \/ a = 12
               \/ a = 13 \/ a = 14 \/ a = 15) by lia.
  assert (Eb : b = 0 \/ b = 1 \/ b = 2 \/ b = 3 \/ b = 4 \/ b = 5 \/ b = 6
               \/ b = 7 \/ b = 8 \/ b = 9 \/ b = 10 \/ b = 11 \/ b = 12
               \/ b = 13 \/ b = 14 \/ b = 15) by lia.
  repeat (destruct Ea as [Ea|Ea]); subst a;
    repeat (destruct Eb as [Eb|Eb]); subst b;
    simpl; intros E; try reflexivity; discriminate E.
Qed.

Lemma hex_digit_single (d : Z) :
  exists c, hex_digit d = String c EmptyString.
Proof.
  unfold hex_digit.
  repeat match goal with
         | |- context [match ?x with _ => _ end] => destruct x
         end; eexists; reflexivity.
Qed.

Lemma format_04X_inj (c1 c2 : Z) :
  0 <= c1 < 65536 -> 0 <= c2 < 65536 ->
  format_04X c1 = format_04X c2 -> c1 = c2.
Proof.
  intros H1 H2 E. unfold format_04X in E.
  assert (D : hex_digit (c1 / 4096) = hex_digit (c2 / 4096)
              /\ hex_digit (c1 / 256 mod 16) = hex_digit (c2 / 256 mod 16)
              /\ hex_digit (c1 / 16 mod 16) = hex_digit (c2 / 16 mod 16)
              /\ hex_digit (c1 mod 16) = hex_digit (c2 mod 16)).
  { destruct (hex_digit_single (c1 / 4096)) as [a1 A1].
    destruct (hex_digit_single (c1 / 256 mod 16)) as [a2 A2].
    destruct (hex_digit_single (c1 / 16 mod 16)) as [a3 A3].
    destruct (hex_digit_single (c1 mod 16)) as [a4 A4].
    destruct (hex_digit_single (c2 / 4096)) as [b1 B1].
    destruct (hex_digit_single (c2 / 256 mod 16)) as [b2 B2].
    destruct (hex_digit_single (c2 / 16 mod 16)) as [b3 B3].
    destruct (hex_digit_single (c2 mod 16)) as [b4 B4].
    rewrite A1, A2, A3, A4, B1, B2, B3, B4 in *. simpl in E.
    injection E as -> -> -> ->. auto. }
  destruct D as [D1 [D2 [D3 D4]]].
  apply hex_digit_inj in D1, D2, D3, D4;
    try (split; [apply Z.div_pos || apply Z.mod_pos_bound
                | apply Z.div_lt_upper_bound || apply Z.mod_pos_bound]; lia);
    try (apply Z.mod_pos_bound; lia).
  pose proof (Z.div_mod c1 16 ltac:(lia)).
  pose proof (Z.div_mod c2 16 ltac:(lia)).
  pose proof (Z.div_mod (c1 / 16) 16 ltac:(lia)).
  pose proof (Z.div_mod (c2 / 16) 16 ltac:(lia)).
  pose proof (Z.div_mod (c1 / 16 / 16) 16 ltac:(lia)).
  pose proof (Z.div_mod (c2 / 16 / 16) 16 ltac:(lia)).
  rewrite !Z.div_div in * by lia.
  change (16 * 16) with 256 in *. change (256 * 16) with 4096 in *.
  assert (c1 / 4096 mod 16 = c1 / 4096)
    by (apply Z.mod_small; split;
        [apply Z.div_pos | apply Z.div_lt_upper_bound]; lia).
  assert (c2 / 4096 mod 16 = c2 / 4096)
    by (apply Z.mod_small; split;
        [apply Z.div_pos | apply Z.div_lt_upper_bound]; lia).
  lia.
Qed.

(** ** Frames shorter than twelve bytes *)

(** C10: a frame with the right header and tail of its family but fewer than
    twelve bytes makes [parse_target_frame], respectively
    [parse_config_frame], return without any effect: nothing is put on the
    queue (no readings, no event, no error or log record) and the object is
    unchanged. *)
Theorem short_frame_dropped_silently :
  forall (tframe cframe : bytes) (g : gui),
    startswith TARGET_FRAME_HEADER tframe = true ->
    endswith TARGET_FRAME_TAIL tframe = true ->
    len tframe < 12 ->
    startswith CONFIG_HEADER cframe = true ->
    endswith CONFIG_TAIL cframe = true ->
    len cframe < 12 ->
    parse_target_frame tframe g = (Returned tt, g)
    /\ parse_config_frame cframe g = (Returned tt, g).
Proof.
  intros tframe cframe g Hts Hte Htl Hcs Hce Hcl. split.
  - unfold parse_target_frame, try_except. rewrite Hts, Hte. cbn [negb orb].
    destruct (Z.ltb_spec (len tframe) 12); [reflexivity | lia].
  - unfold parse_config_frame, try_except. rewrite Hcs, Hce. cbn [negb orb].
    destruct (Z.ltb_spec (len cframe) 12); [reflexivity | lia].
Qed.

(** The synchronizer does hand such frames to the parsers: a header directly
    followed by its tail is cut out as an eight-byte frame, and the only
    record of it is the synchronizer's own. *)
Example eight_byte_frame_extracted :
  forall g,
    reader_pass (TARGET_FRAME_HEADER ++ TARGET_FRAME_TAIL) g
    = (Returned (Some []),
       record g [QueuePut
                   (log "recv" "RECEIVED (Target): F4 F3 F2 F1 F8 F7 F6 F5")]).
Proof. reflexivity. Qed.

(** ** Command words the config parser does not know *)

(** C7: in a config frame with valid header and tail and at least twelve
    bytes whose command word (little-endian, offsets 6 and 7) is none of the
    five acknowledgment codes, [parse_config_frame] returns normally and puts
    exactly one item on the queue: a record of type info, not error, whose
    text ends with the command word as four hexadecimal digits; that text
    determines the command word. *)
Theorem unknown_command_reported_as_info :
  forall (frame : bytes) (g : gui),
    startswith CONFIG_HEADER frame = true ->
    endswith CONFIG_TAIL frame = true ->
    12 <= len frame ->
    u16le_at frame 6 <> CONFIG_ACK_TARGET_PARAMS ->
    u16le_at frame 6 <> CONFIG_ACK_SENSITIVITY ->
    u16le_at frame 6 <> CONFIG_CMD_ENABLE_ACK ->
    u16le_at frame 6 <> CONFIG_CMD_DISABLE_ACK ->
    u16le_at frame 6 <> CONFIG_ACK_FIRMWARE_VERSION ->
    parse_config_frame frame g
    = (Returned tt,
       record g [QueuePut
                   (log "info"
                      ("Unknown config response: 0x"
                       ++ format_04X (u16le_at frame 6)))])
    /\ ~ reports_error
         [QueuePut
            (log "info"
               ("Unknown config response: 0x"
                ++ format_04X (u16le_at frame 6)))]
    /\ forall code,
         0 <= code < 65536 ->
         format_04X code = format_04X (u16le_at frame 6) ->
         code = u16le_at frame 6.
Proof.
  intros frame g Hs He Hl N1 N2 N3 N4 N5. split; [|split].
  - unfold parse_config_frame, try_except. rewrite Hs, He. cbn [negb orb].
    destruct (Z.ltb_spec (len frame) 12); [lia|].
    unfold bind at 1, lift. rewrite unpack_command_word by assumption.
    apply Z.eqb_neq in N1, N2, N3, N4, N5.
    rewrite N1, N2, N3, N4, N5. cbn [andb]. reflexivity.
  - intros [message [E|[]]]. discriminate E.
  - intros code Hc E. apply format_04X_inj; auto using u16le_at_range.
Qed.

Lemma unknown_command_reported_as_info_witness :
  parse_config_frame
    (CONFIG_HEADER ++ [x02; x00; x99; x01] ++ CONFIG_TAIL)
    {| is_connected := true; serial_port := Some [];
       config_mode := false; trace := [] |}
  = (Returned tt,
     {| is_connected := true; serial_port := Some [];
        config_mode := false;
        trace := [QueuePut (log "info" "Unknown config response: 0x0199")] |}).
Proof.
  apply (unknown_command_reported_as_info
           (CONFIG_HEADER ++ [x02; x00; x99; x01] ++ CONFIG_TAIL));
    try reflexivity; vm_compute; congruence.
Defined.

Lemma short_frame_dropped_silently_witness :
  parse_target_frame (TARGET_FRAME_HEADER ++ TARGET_FRAME_TAIL)
    {| is_connected := true; serial_port := None;
       config_mode := false; trace := [] |}
  = (Returned tt,
     {| is_connected := true; serial_port := None;
        config_mode := false; trace := [] |})
  /\ parse_config_frame (CONFIG_HEADER ++ [x02] ++ CONFIG_TAIL)
       {| is_connected := true; serial_port := None;
          config_mode := false; trace := [] |}
     = (Returned tt,
        {| is_connected := true; serial_port := None;
           config_mode := false; trace := [] |}).
Proof.
  apply (short_frame_dropped_silently
           (TARGET_FRAME_HEADER ++ TARGET_FRAME_TAIL)
           (CONFIG_HEADER ++ [x02] ++ CONFIG_TAIL));
    reflexivity.
Defined.

(** ** Config acknowledgments too short for their payload *)

(** The claim C5 fails on this frame: a target-parameters acknowledgment of
    twelve bytes is not reported as an error; the parser returns normally
    and its only record is of type info. *)
Lemma truncated_ack_counterexample :
  let frame := CONFIG_HEADER ++ [x02; x00; x12; x01] ++ CONFIG_TAIL in
  startswith CONFIG_HEADER frame = true
  /\ endswith CONFIG_TAIL frame = true
  /\ 12 <= len frame < 16
  /\ u16le_at frame 6 = CONFIG_ACK_TARGET_PARAMS
  /\ forall g,
       parse_config_frame frame g
       = (Returned tt,
          record g [QueuePut (log "info" "Unknown config response: 0x0112")])
       /\ ~ reports_error
            [QueuePut (log "info" "Unknown config response: 0x0112")].
Proof.
  cbv zeta. repeat split; try reflexivity; try discriminate.
  intros [message [E|[]]]. discriminate E.
Qed.

(** C5, as the code has it: a config frame with valid header and tail and
    twelve to fifteen bytes whose command word is the target-parameters or
    the sensitivity acknowledgment produces no parameter or sensitivity
    report and no error record; the parser returns normally and puts one
    info record on the queue, the one of an unknown command word. *)
Theorem short_ack_reported_as_unknown :
  forall (frame : bytes) (g : gui),
    startswith CONFIG_HEADER frame = true ->
    endswith CONFIG_TAIL frame = true ->
    12 <= len frame < 16 ->
    u16le_at frame 6 = CONFIG_ACK_TARGET_PARAMS
    \/ u16le_at frame 6 = CONFIG_ACK_SENSITIVITY ->
    parse_config_frame frame g
    = (Returned tt,
       record g [QueuePut
                   (log "info"
                      ("Unknown config response: 0x"
                       ++ format_04X (u16le_at frame 6)))])
    /\ ~ reports_error
         [QueuePut
            (log "info"
               ("Unknown config response: 0x"
                ++ format_04X (u16le_at frame 6)))].
Proof.
  intros frame g Hs He Hl Hc. split.
  - unfold parse_config_frame, try_except. rewrite Hs, He. cbn [negb orb].
    destruct (Z.ltb_spec (len frame) 12); [lia|].
    unfold bind at 1, lift. rewrite unpack_command_word by lia.
    assert (Hlen : (len frame >=? 16) = false).
    { rewrite Z.geb_leb. apply Z.leb_gt. lia. }
    rewrite Hlen, !andb_false_r.
    destruct Hc as [Hc|Hc]; rewrite Hc; reflexivity.
  - intros [message [E|[]]]. discriminate E.
Qed.

Lemma short_ack_reported_as_unknown_witness :
  parse_config_frame
    (CONFIG_HEADER ++ [x04; x00; x13; x01; x00; x00] ++ CONFIG_TAIL)
    {| is_connected := true; serial_port := Some [];
       config_mode := true; trace := [] |}
  = (Returned tt,
     {| is_connected := true; serial_port := Some [];
        config_mode := true;
        trace := [QueuePut (log "info" "Unknown config response: 0x0113")] |}).
Proof.
  apply (short_ack_reported_as_unknown
           (CONFIG_HEADER ++ [x04; x00; x13; x01; x00; x00] ++ CONFIG_TAIL));
    try reflexivity.
  - split; [discriminate | reflexivity].
  - right. reflexivity.
Defined.

(** The firmware-version branch has no length test of its own: on a frame
    of twelve bytes it reads the last two bytes of the tail as the version. *)
Example firmware_ack_without_payload :
  forall g,
    parse_config_frame
      (CONFIG_HEADER ++ [x02; x00; xa0; x01] ++ CONFIG_TAIL) g
    = (Returned tt,
       record g [QueuePut (config_firmware_version 258);
                 QueuePut (log "info" "Received firmware version: 258")]).
Proof.
  intros g.
  exact (f_equal (pair (Returned tt))
           (record_record g [QueuePut (config_firmware_version 258)]
              [QueuePut (log "info" "Received firmware version: 258")])).
Qed.

(** ** The target loop *)

Lemma speed_word_split (h l : Z) :
  0 <= h < 256 -> 0 <= l < 256 ->
  Z.land (Z.lor (Z.shiftl h 8) l) 0xFF = l
  /\ Z.shiftr (Z.lor (Z.shiftl h 8) l) 8 = h.
Proof.
  intros Hh Hl. split.
  - change 0xFF with (Z.ones 8).
    rewrite Z.land_lor_distr_l, !Z.land_ones by lia.
    rewrite Z.shiftl_mul_pow2 by lia.
    rewrite Z.mod_mul by lia.
    rewrite Z.lor_0_l. apply Z.mod_small. simpl; lia.
  - rewrite Z.shiftr_lor.
    rewrite Z.shiftr_shiftl_l by lia. rewrite Z.sub_diag, Z.shiftl_0_r.
    rewrite (Z.shiftr_div_pow2 l) by lia.
    rewrite (Z.div_small l) by (simpl; lia).
    apply Z.lor_0_r.
Qed.

(** What the loop computes: it appends to [batch] the readings of the
    records at [offset], [offset + 5], ..., one per round, until [n] rounds
    are done or fewer than five bytes are left before the last four. *)
Lemma target_loop_spec (frame : bytes) : forall n offset batch,
  target_loop frame n (Z.of_nat offset) batch
  = Returned
      (batch
       ++ map (fun i => spec_reading frame (offset + 5 * i))
            (seq 0 (Nat.min n ((length frame - 4 - offset) / 5)))).
Proof.
  induction n as [|n IH]; intros offset batch.
  - simpl. now rewrite app_nil_r.
  - cbn [target_loop]. unfold len.
    destruct (Z.gtb_spec (Z.of_nat offset + 5) (Z.of_nat (length frame) - 4))
      as [Hbreak|Hgo].
    + rewrite Nat.div_small by lia. rewrite Nat.min_0_r. simpl.
      now rewrite app_nil_r.
    + rewrite !index_in_range by (unfold len; lia).
      cbn [result_bind].
      replace (Z.to_nat (Z.of_nat offset)) with offset by lia.
      replace (Z.to_nat (Z.of_nat offset + 1)) with (offset + 1)%nat by lia.
      replace (Z.to_nat (Z.of_nat offset + 2)) with (offset + 2)%nat by lia.
      replace (Z.to_nat (Z.of_nat offset + 3)) with (offset + 3)%nat by lia.
      replace (Z.to_nat (Z.of_nat offset + 4)) with (offset + 4)%nat by lia.
      destruct (speed_word_split (u8_at frame (offset + 2))
                  (u8_at frame (offset + 3))
                  (u8_at_range _ _) (u8_at_range _ _)) as [Hlo Hhi].
      rewrite Hlo, Hhi.
      replace (Z.of_nat offset + 5) with (Z.of_nat (offset + 5)) by lia.
      rewrite IH.
      assert (Hq : ((length frame - 4 - offset) / 5
                    = S ((length frame - 4 - (offset + 5)) / 5))%nat).
      { replace (length frame - 4 - offset)%nat
          with (1 * 5 + (length frame - 4 - (offset + 5)))%nat by lia.
        rewrite Nat.div_add_l by lia. lia. }
      rewrite Hq. rewrite <- Nat.succ_min_distr.
      cbn [seq map]. rewrite <- seq_shift, map_map.
      rewrite <- app_assoc. cbn [app].
      f_equal. f_equal. f_equal.
      * unfold spec_reading. rewrite Nat.mul_0_r, Nat.add_0_r. reflexivity.
      * apply map_ext. intros i. f_equal. lia.
Qed.

(** A valid target frame of at least twelve bytes gets exactly one queue
    item, the batch of the first [min count k] records, where [count] is the
    byte at offset 6 and [k] the number of complete records in the frame. *)
Lemma parse_target_frame_valid (frame : bytes) (g : gui) :
  startswith TARGET_FRAME_HEADER frame = true ->
  endswith TARGET_FRAME_TAIL frame = true ->
  12 <= len frame ->
  parse_target_frame frame g
  = (Returned tt,
     record g
       [QueuePut
          (targets
             (map (fun i => spec_reading frame (8 + 5 * i))
                (seq 0 (Nat.min (Z.to_nat (u8_at frame 6))
                          (complete_records frame)))))]).
Proof.
  intros Hs He Hl.
  unfold parse_target_frame, try_except. rewrite Hs, He. cbn [negb orb].
  destruct (Z.ltb_spec (len frame) 12); [lia|].
  unfold bind, lift.
  rewrite !index_in_range by lia.
  change 8 with (Z.of_nat 8). rewrite target_loop_spec. cbn [app].
  unfold complete_records.
  replace (length frame - 4 - 8)%nat with (length frame - 12)%nat by lia.
  reflexivity.
Qed.

(** C3: a target frame with valid header and tail and at least twelve bytes
    whose count byte is larger than the number [k] of complete five-byte
    records before the last four bytes is decoded without error: the parser
    returns normally and puts exactly one item on the queue, a batch of
    exactly [k] readings. *)
Theorem truncated_target_frame_decodes_complete_records :
  forall (frame : bytes) (g : gui),
    startswith TARGET_FRAME_HEADER frame = true ->
    endswith TARGET_FRAME_TAIL frame = true ->
    12 <= len frame ->
    Z.of_nat (complete_records frame) < u8_at frame 6 ->
    exists batch,
      parse_target_frame frame g
      = (Returned tt, record g [QueuePut (targets batch)])
      /\ length batch = complete_records frame
      /\ ~ reports_error [QueuePut (targets batch)].
Proof.
  intros frame g Hs He Hl Hk.
  eexists. split; [now apply parse_target_frame_valid|]. split.
  - rewrite length_map, length_seq. lia.
  - intros [message [E|[]]]. discriminate E.
Qed.

Lemma truncated_target_frame_decodes_complete_records_witness :
  let frame :=
    TARGET_FRAME_HEADER
    ++ [x11; x00; x03; x00;
        x80; x0a; x01; x1e; x05;
        x50; x14; x00; x1e; x07;
        x90; x1e; x00]
    ++ TARGET_FRAME_TAIL in
  u8_at frame 6 = 3
  /\ exists batch,
       parse_target_frame frame
         {| is_connected := true; serial_port := Some [];
            config_mode := false; trace := [] |}
       = (Returned tt,
          record {| is_connected := true; serial_port := Some [];
                    config_mode := false; trace := [] |}
            [QueuePut (targets batch)])
       /\ length batch = 2%nat
       /\ ~ reports_error [QueuePut (targets batch)].
Proof.
  split; [reflexivity|].
  apply (truncated_target_frame_decodes_complete_records
           (TARGET_FRAME_HEADER
            ++ [x11; x00; x03; x00;
                x80; x0a; x01; x1e; x05;
                x50; x14; x00; x1e; x07;
                x90; x1e; x00]
            ++ TARGET_FRAME_TAIL));
    try reflexivity.
  discriminate.
Defined.

(** C6: every reading decoded from a target frame with valid header and
    tail and at least twelve bytes follows the decoding rules: for the
    record at offset [8 + 5 i], the angle is the first byte less 128, the
    distance is the second byte, and the speed is the fourth byte, negated
    exactly when the third byte is 1. *)
Theorem target_reading_decoding_rules :
  forall (frame : bytes) (g : gui),
    startswith TARGET_FRAME_HEADER frame = true ->
    endswith TARGET_FRAME_TAIL frame = true ->
    12 <= len frame ->
    exists batch,
      parse_target_frame frame g
      = (Returned tt, record g [QueuePut (targets batch)])
      /\ length batch
         = Nat.min (Z.to_nat (u8_at frame 6)) (complete_records frame)
      /\ forall i r,
           nth_error batch i = Some r ->
           let angle_raw := u8_at frame (8 + 5 * i) in
           let dist_raw := u8_at frame (8 + 5 * i + 1) in
           let speed_high := u8_at frame (8 + 5 * i + 2) in
           let speed_low := u8_at frame (8 + 5 * i + 3) in
           r = spec_reading frame (8 + 5 * i)
           /\ angle_deg r = angle_raw - 128
           /\ distance_m r = dist_raw
           /\ (speed_high = 1 -> speed_kmh r = - speed_low)
           /\ (speed_high <> 1 -> speed_kmh r = speed_low)
           /\ 0 <= speed_low.
Proof.
  intros frame g Hs He Hl.
  eexists. split; [now apply parse_target_frame_valid|]. split.
  - now rewrite length_map, length_seq.
  - intros i r Hr. cbv zeta.
    assert (Hi : (i < Nat.min (Z.to_nat (u8_at frame 6))
                     (complete_records frame))%nat).
    { assert (Hn : nth_error
                     (map (fun i => spec_reading frame (8 + 5 * i))
                        (seq 0 (Nat.min (Z.to_nat (u8_at frame 6))
                                  (complete_records frame)))) i <> None)
        by congruence.
      apply nth_error_Some in Hn.
      now rewrite length_map, length_seq in Hn. }
    rewrite nth_error_map, nth_error_seq in Hr.
    apply Nat.ltb_lt in Hi. rewrite Hi in Hr. cbn in Hr.
    injection Hr as <-.
    split; [reflexivity|]. unfold spec_reading. cbn.
    repeat split.
    + intros E. now rewrite E.
    + intros E. apply Z.eqb_neq in E. now rewrite E.
    + apply u8_at_range.
Qed.

Lemma target_reading_decoding_rules_witness :
  let frame :=
    TARGET_FRAME_HEADER
    ++ [x0c; x00; x02; x00;
        x80; x0a; x01; x1e; x05;
        x50; x14; x00; x1e; x07]
    ++ TARGET_FRAME_TAIL in
  exists r0 r1,
    parse_target_frame frame
      {| is_connected := true; serial_port := Some [];
         config_mode := false; trace := [] |}
    = (Returned tt,
       record {| is_connected := true; serial_port := Some [];
                 config_mode := false; trace := [] |}
         [QueuePut (targets [r0; r1])])
    /\ angle_deg r0 = 0 /\ speed_kmh r0 = -30 /\ distance_m r0 = 10
    /\ angle_deg r1 = -48 /\ speed_kmh r1 = 30 /\ distance_m r1 = 20.
Proof.
  cbv zeta.
  destruct (target_reading_decoding_rules
              (TARGET_FRAME_HEADER
               ++ [x0c; x00; x02; x00;
                   x80; x0a; x01; x1e; x05;
                   x50; x14; x00; x1e; x07]
               ++ TARGET_FRAME_TAIL)
              {| is_connected := true; serial_port := Some [];
                 config_mode := false; trace := [] |}
              eq_refl eq_refl ltac:(discriminate))
    as [batch [Hrun [Hlen Hrule]]].
  destruct batch as [|r0 [|r1 [|r2 batch]]]; try discriminate Hlen.
  exists r0, r1. split; [exact Hrun|].
  destruct (Hrule 0%nat r0 eq_refl) as [-> _].
  destruct (Hrule 1%nat r1 eq_refl) as [-> _].
  repeat split.
Defined.

(** ** Writing a frame to the port *)

Lemma writes_of_app (a b : list effect) :
  writes_of (a ++ b) = writes_of a ++ writes_of b.
Proof.
  induction a as [|e a IH]; simpl; auto.
  destruct e; simpl; now rewrite IH.
Qed.

Lemma queue_of_app (a b : list effect) :
  queue_of (a ++ b) = queue_of a ++ queue_of b.
Proof.
  induction a as [|e a IH]; simpl; auto.
  destruct e; simpl; now rewrite IH.
Qed.

(** The sent record claimed by C9 is missing before the write: on a
    connected port that accepts everything, the first effect of
    [serial_write_and_log] is the write itself, and the sent record comes
    last. *)
Lemma sent_record_counterexample :
  let g := {| is_connected := true; serial_port := Some [];
              config_mode := false; trace := [] |} in
  trace (snd (serial_write_and_log enable_frame g))
  = [PortWrite enable_frame; PortFlush;
     QueuePut (log "sent" "SENT: FD FC FB FA 02 00 FF 00 04 03 02 01")]
  /\ ~ sent_logged_before_write
         (trace (snd (serial_write_and_log enable_frame g))).
Proof.
  split; [reflexivity|].
  intros H.
  destruct (H [] enable_frame
              [PortFlush;
               QueuePut
                 (log "sent" "SENT: FD FC FB FA 02 00 FF 00 04 03 02 01")]
              eq_refl) as [message []].
Qed.

(** C9, as the code has it: [serial_write_and_log] attempts the write
    first and records afterwards, and what it records is decided by the
    state of the connection and by what the port answers.  When the object
    is not connected (the flag is off or there is no port) no write is
    attempted, the only effect is one error record, and the result is
    [False].  When it is connected, the write of the frame is the first
    effect and exactly one record follows: if the write and the flush both
    succeed, the sent record of the frame, after the flush, and the result is
    [True]; if the write raises, an error record with the exception, right
    after the write, no flush, and the result is [False]; if the write
    succeeds and the flush raises, an error record with the exception after
    the flush, and the result is [False].  Nothing is raised to the caller
    and no record precedes the write.  What the port answers to a call is
    the head of the list of its outcomes to come, an exhausted list
    answering success; each call consumes one outcome. *)
Theorem write_attempted_then_one_record :
  forall (frame : bytes) (g : gui),
    (is_connected g = false \/ serial_port g = None ->
     serial_write_and_log frame g
     = (Returned false,
        record g [QueuePut (log "error" "Not connected - cannot send data")]))
    /\ (forall o,
          is_connected g = true ->
          serial_port g = Some o ->
          (hd io_ok o = io_ok ->
           hd io_ok (tl o) = io_ok ->
           serial_write_and_log frame g
           = (Returned true,
              {| is_connected := true; serial_port := Some (tl (tl o));
                 config_mode := config_mode g;
                 trace := trace g
                          ++ [PortWrite frame; PortFlush;
                              QueuePut
                                (log "sent" ("SENT: " ++ format_hex frame))]
              |}))
          /\ (forall e,
                hd io_ok o = io_raises e ->
                serial_write_and_log frame g
                = (Returned false,
                   {| is_connected := true; serial_port := Some (tl o);
                      config_mode := config_mode g;
                      trace := trace g
                               ++ [PortWrite frame;
                                   QueuePut
                                     (log "error"
                                        ("Serial write error: " ++ e))] |}))
          /\ (forall e,
                hd io_ok o = io_ok ->
                hd io_ok (tl o) = io_raises e ->
                serial_write_and_log frame g
                = (Returned false,
                   {| is_connected := true; serial_port := Some (tl (tl o));
                      config_mode := config_mode g;
                      trace := trace g
                               ++ [PortWrite frame; PortFlush;
                                   QueuePut
                                     (log "error"
                                        ("Serial write error: " ++ e))] |}))).
Proof.
  intros frame [c p m t]. cbn [is_connected serial_port config_mode trace].
  split.
  - intros [-> | ->]; unfold serial_write_and_log;
      cbn [is_connected serial_port negb orb]; [reflexivity|].
    destruct c; reflexivity.
  - intros o -> ->. unfold serial_write_and_log.
    cbn [is_connected serial_port negb orb].
    split; [|split].
    + intros Hw Hf.
      destruct o as [|[|e1] [|[|e2] o]]; cbn [hd tl] in Hw, Hf;
        try discriminate Hw; try discriminate Hf;
        cbn; unfold record; cbn [is_connected serial_port config_mode trace];
        rewrite <- ?app_assoc; cbn [app]; reflexivity.
    + intros e Hw.
      destruct o as [|[|e1] o]; cbn [hd] in Hw; try discriminate Hw.
      injection Hw as ->.
      cbn; unfold record; cbn [is_connected serial_port config_mode trace];
      rewrite <- ?app_assoc; cbn [app]; reflexivity.
    + intros e Hw Hf.
      destruct o as [|[|e1] [|[|e2] o]]; cbn [hd tl] in Hw, Hf;
        try discriminate Hw; try discriminate Hf.
      injection Hf as ->.
      cbn; unfold record; cbn [is_connected serial_port config_mode trace];
      rewrite <- ?app_assoc; cbn [app]; reflexivity.
Qed.

Lemma write_attempted_then_one_record_witness :
  let frame := CONFIG_HEADER ++ [x02; x00; xff; x00] ++ CONFIG_TAIL in
  serial_write_and_log frame
    {| is_connected := false; serial_port := Some [];
       config_mode := false; trace := [] |}
  = (Returned false,
     {| is_connected := false; serial_port := Some [];
        config_mode := false;
        trace := [QueuePut (log "error" "Not connected - cannot send data")]
     |})
  /\ serial_write_and_log frame
       {| is_connected := true; serial_port := Some [io_ok; io_ok; io_ok];
          config_mode := false; trace := [] |}
     = (Returned true,
        {| is_connected := true; serial_port := Some [io_ok];
           config_mode := false;
           trace := [PortWrite frame; PortFlush;
                     QueuePut
                       (log "sent"
                          "SENT: FD FC FB FA 02 00 FF 00 04 03 02 01")] |})
  /\ serial_write_and_log frame
       {| is_connected := true;
          serial_port := Some [io_raises "write timeout"%string; io_ok];
          config_mode := false; trace := [] |}
     = (Returned false,
        {| is_connected := true; serial_port := Some [io_ok];
           config_mode := false;
           trace := [PortWrite frame;
                     QueuePut
                       (log "error" "Serial write error: write timeout")] |})
  /\ serial_write_and_log frame
       {| is_connected := true;
          serial_port := Some [io_ok; io_raises "port closed"%string];
          config_mode := false; trace := [] |}
     = (Returned false,
        {| is_connected := true; serial_port := Some [];
           config_mode := false;
           trace := [PortWrite frame; PortFlush;
                     QueuePut
                       (log "error" "Serial write error: port closed")] |}).
Proof.
  cbv zeta. split; [|split; [|split]].
  - apply (proj1 (write_attempted_then_one_record
                    (CONFIG_HEADER ++ [x02; x00; xff; x00] ++ CONFIG_TAIL)
                    {| is_connected := false; serial_port := Some [];
                       config_mode := false; trace := [] |})).
    left. reflexivity.
  - apply (proj1 (proj2 (write_attempted_then_one_record
                           (CONFIG_HEADER ++ [x02; x00; xff; x00]
                            ++ CONFIG_TAIL)
                           {| is_connected := true;
                              serial_port := Some [io_ok; io_ok; io_ok];
                              config_mode := false; trace := [] |})
                   [io_ok; io_ok; io_ok] eq_refl eq_refl));
      reflexivity.
  - apply (proj1 (proj2 (proj2 (write_attempted_then_one_record
                                  (CONFIG_HEADER ++ [x02; x00; xff; x00]
                                   ++ CONFIG_TAIL)
                                  {| is_connected := true;
                                     serial_port :=
                                       Some [io_raises "write timeout"%string; io_ok];
                                     config_mode := false; trace := [] |})
                          [io_raises "write timeout"%string; io_ok]
                          eq_refl eq_refl)) "write timeout"%string).
    reflexivity.
  - apply (proj2 (proj2 (proj2 (write_attempted_then_one_record
                                  (CONFIG_HEADER ++ [x02; x00; xff; x00]
                                   ++ CONFIG_TAIL)
                                  {| is_connected := true;
                                     serial_port :=
                                       Some [io_ok; io_raises "port closed"%string];
                                     config_mode := false; trace := [] |})
                          [io_ok; io_raises "port closed"%string]
                          eq_refl eq_refl)) "port closed"%string);
      reflexivity.
Defined.

(** A read command is a single frame sent the same way: the write, the
    flush, then the sent record, then the note of the command. *)
Example read_command_effects :
  send_read_command CONFIG_CMD_READ_TARGET_PARAMS
    {| is_connected := true; serial_port := Some [];
       config_mode := false; trace := [] |}
  = (Returned true,
     {| is_connected := true; serial_port := Some [];
        config_mode := false;
        trace :=
          [PortWrite (CONFIG_HEADER ++ [x02; x00; x12; x00] ++ CONFIG_TAIL);
           PortFlush;
           QueuePut (log "sent" "SENT: FD FC FB FA 02 00 12 00 04 03 02 01");
           QueuePut (log "info" "Sent read command: 0x0012")] |}).
Proof. reflexivity. Qed.

(** ** The write command sequence *)

Lemma pack_H_in_range (v : Z) :
  0 <= v <= 65535 -> (0 <=? v) && (v <=? 65535) = true.
Proof.
  intros H. apply andb_true_iff. split; apply Z.leb_le; lia.
Qed.

(** When the object is not connected the command is refused at once: a
    warning box, nothing written, [False]. *)
Lemma send_write_config_command_not_connected
    (command_word : Z) (value_bytes : bytes) (g : gui) :
  is_connected g = false ->
  send_write_config_command command_word value_bytes g
  = (Returned false,
     record g [ShowWarning "Warning" "Not connected to the device."]).
Proof.
  intros H. unfold send_write_config_command. rewrite H. reflexivity.
Qed.

(** C4: in a write command (enable, payload, disable) on a connected
    object, let step [k] (0, 1 or 2) be the first whose write or flush
    raises a transport error.  Then the command returns [False] to the
    caller, raising nothing, and the frames handed to the port are exactly
    the first [k + 1] of the three: every step after the failed one is
    skipped.  For [k = 1] the payload write is the last one and the disable
    frame is never written. *)
Theorem failed_write_step_aborts_sequence :
  forall (command_word : Z) (value_bytes : bytes) (g : gui)
         (k : nat) (e : string) (rest : list io_outcome),
    is_connected g = true ->
    0 <= command_word <= 65535 ->
    len value_bytes + 2 <= 65535 ->
    (k < 3)%nat ->
    serial_port g = Some (repeat io_ok (2 * k) ++ io_raises e :: rest)
    \/ serial_port g = Some (repeat io_ok (2 * k + 1) ++ io_raises e :: rest) ->
    exists g',
      send_write_config_command command_word value_bytes g
      = (Returned false, g')
      /\ writes_of (trace g')
         = writes_of (trace g)
           ++ firstn (S k)
                [enable_frame; write_frame command_word value_bytes;
                 disable_frame]
      /\ exists q,
           queue_of (trace g')
           = queue_of (trace g) ++ q
             ++ [log "error" ("Serial write error: " ++ e)].
Proof.
  intros command_word value_bytes [c p m t] k e rest Hc Hcw Hlen Hk Hp.
  cbn [is_connected serial_port trace] in *. subst c.
  assert (Hlen' : 0 <= len value_bytes + 2 <= 65535)
    by (unfold len in Hlen |- *; lia).
  apply pack_H_in_range in Hcw, Hlen'.
  assert (Ek : k = 0%nat \/ k = 1%nat \/ k = 2%nat) by lia.
  unfold send_write_config_command, try_except, bind, lift, pack_H.
  destruct Ek as [-> | [-> | ->]]; destruct Hp as [-> | ->];
    cbn -[len format_hex Z.div Z.modulo byte_of String.append];
    rewrite ?Hcw, ?Hlen';
    cbn -[len format_hex Z.div Z.modulo byte_of String.append];
    (eexists; split; [reflexivity|]);
    unfold record; cbn [trace];
    rewrite !writes_of_app, !queue_of_app;
    cbn [writes_of queue_of]; rewrite <- !app_assoc; cbn [app];
    (split; [reflexivity|]);
    eexists; f_equal;
    match goal with
    | |- ?l = ?q ++ _ => unify q (removelast l)
    end; reflexivity.
Qed.

Lemma failed_write_step_aborts_sequence_witness :
  exists g',
    send_write_config_command CONFIG_CMD_SET_TARGET_PARAMS
      [x32; x02; x0a; x05]
      {| is_connected := true;
         serial_port := Some [io_ok; io_ok; io_raises "write timeout"];
         config_mode := false; trace := [] |}
    = (Returned false, g')
    /\ writes_of (trace g')
       = [enable_frame;
          write_frame CONFIG_CMD_SET_TARGET_PARAMS [x32; x02; x0a; x05]]
    /\ exists q,
         queue_of (trace g')
         = q ++ [log "error" "Serial write error: write timeout"].
Proof.
  apply (failed_write_step_aborts_sequence CONFIG_CMD_SET_TARGET_PARAMS
           [x32; x02; x0a; x05]
           {| is_connected := true;
              serial_port := Some [io_ok; io_ok; io_raises "write timeout"];
              config_mode := false; trace := [] |}
           1%nat "write timeout" []).
  - reflexivity.
  - split; discriminate.
  - discriminate.
  - lia.
  - left. reflexivity.
Defined.

(** ** Encoding target parameters and decoding their acknowledgment *)

(** C8: for all four argument bytes [a b c d], the write command for
    SetTargetParams on a connected port that accepts every call sends, as
    its payload frame, the config header, the length field 6 (the four
    arguments and two more), the command word 0x0002, the four arguments and
    the config tail; and a target-parameters acknowledgment with valid header
    and tail and at least sixteen bytes that carries the same four bytes at
    offset 10 is decoded to the report of [a b c d]. *)
Theorem target_params_round_trip :
  forall (a b c d : byte) (frame : bytes) (g g1 : gui) (n : nat),
    is_connected g = true ->
    serial_port g = Some (repeat io_ok n) ->
    startswith CONFIG_HEADER frame = true ->
    endswith CONFIG_TAIL frame = true ->
    16 <= len frame ->
    u16le_at frame 6 = CONFIG_ACK_TARGET_PARAMS ->
    slice frame 10 14 = [a; b; c; d] ->
    (exists g',
       send_write_config_command CONFIG_CMD_SET_TARGET_PARAMS [a; b; c; d] g
       = (Returned true, g')
       /\ writes_of (trace g')
          = writes_of (trace g)
            ++ [enable_frame;
                CONFIG_HEADER ++ [x06; x00] ++ [x02; x00] ++ [a; b; c; d]
                ++ CONFIG_TAIL;
                disable_frame])
    /\ len [a; b; c; d] + 2 = 6
    /\ parse_config_frame frame g1
       = (Returned tt,
          record g1
            [QueuePut
               (config_target_params (byte_val a) (byte_val b) (byte_val c)
                  (byte_val d));
             QueuePut
               (log "info"
                  ("Received target params: dist=" ++ format_int (byte_val a)
                   ++ "m, dir=" ++ format_int (byte_val b)
                   ++ ", speed=" ++ format_int (byte_val c)
                   ++ "km/h, delay=" ++ format_int (byte_val d) ++ "s"))]).
Proof.
  intros a b c d frame [cn p m t] g1 n Hc Hp Hs He Hl Hcmd Hpay.
  cbn [is_connected serial_port trace] in *. subst cn p.
  split; [|split; [reflexivity|]].
  - unfold send_write_config_command, try_except, bind, lift, pack_H.
    do 6 (destruct n as [|n];
          [cbn -[format_hex String.append];
           eexists; split; [reflexivity|];
           unfold record; cbn [trace]; rewrite !writes_of_app;
           cbn [writes_of]; rewrite <- !app_assoc; reflexivity|]).
    cbn -[format_hex String.append].
    eexists; split; [reflexivity|].
    unfold record; cbn [trace]; rewrite !writes_of_app.
    cbn [writes_of]; rewrite <- !app_assoc; reflexivity.
  - unfold parse_config_frame, try_except. rewrite Hs, He. cbn [negb orb].
    destruct (Z.ltb_spec (len frame) 12); [lia|].
    unfold bind at 1, lift. rewrite unpack_command_word by lia.
    rewrite Hcmd, Z.eqb_refl.
    assert (Hlen : (len frame >=? 16) = true).
    { rewrite Z.geb_leb. apply Z.leb_le. lia. }
    rewrite Hlen. cbn [andb]. unfold bind, lift. rewrite Hpay.
    cbn [unpack_BBBB]. unfold put, emit. now rewrite record_record.
Qed.

Lemma target_params_round_trip_witness :
  let g := {| is_connected := true; serial_port := Some [];
              config_mode := false; trace := [] |} in
  let ack :=
    CONFIG_HEADER
    ++ [x08; x00; x12; x01; x00; x00; x32; x02; x0a; x05]
    ++ CONFIG_TAIL in
  writes_of
    (trace
       (snd (send_write_config_command CONFIG_CMD_SET_TARGET_PARAMS
               [x32; x02; x0a; x05] g)))
  = [enable_frame;
     CONFIG_HEADER ++ [x06; x00; x02; x00; x32; x02; x0a; x05]
     ++ CONFIG_TAIL;
     disable_frame]
  /\ queue_of (trace (snd (parse_config_frame ack g)))
     = [config_target_params 50 2 10 5;
        log "info"
          "Received target params: dist=50m, dir=2, speed=10km/h, delay=5s"].
Proof.
  cbv zeta.
  destruct (target_params_round_trip x32 x02 x0a x05
              (CONFIG_HEADER
               ++ [x08; x00; x12; x01; x00; x00; x32; x02; x0a; x05]
               ++ CONFIG_TAIL)
              {| is_connected := true; serial_port := Some [];
                 config_mode := false; trace := [] |}
              {| is_connected := true; serial_port := Some [];
                 config_mode := false; trace := [] |}
              0%nat eq_refl eq_refl eq_refl eq_refl
              ltac:(discriminate) eq_refl eq_refl)
    as [[g' [Hsend Hwrites]] [_ Hparse]].
  rewrite Hsend, Hparse. split; [exact Hwrites | reflexivity].
Defined.

(** ** One round of the frame extraction loop *)

Lemma bind_assoc {A B C} (c : M A) (k : A -> M B) (h : B -> M C) (g : gui) :
  bind (bind c k) h g = bind c (fun x => bind (k x) h) g.
Proof.
  unfold bind. destruct (c g) as [[a|e] g']; reflexivity.
Qed.

Lemma find_first_at (sub b : bytes) (start i : nat) :
  sub <> [] -> first_at sub b start i ->
  find sub b (Z.of_nat start) = Z.of_nat i.
Proof.
  intros Hne Hi.
  destruct (find_spec sub b start Hne) as [[_ Ha] | [j [Hf [Hj _]]]].
  - destruct Hi as [Hle [Hocc _]]. now destruct (Ha i Hle).
  - rewrite Hf. f_equal. eapply first_at_unique; eauto.
Qed.

Lemma find_absent (sub b : bytes) (start : nat) :
  sub <> [] -> absent_from sub b start ->
  find sub b (Z.of_nat start) = -1.
Proof.
  intros Hne Ha.
  destruct (find_spec sub b start Hne) as [[Hf _] | [j [_ [Hj _]]]]; auto.
  destruct Hj as [Hle [Hocc _]]. now destruct (Ha j Hle).
Qed.

Lemma header_not_empty (f : family) : header_of f <> [].
Proof. destruct f; discriminate. Qed.

Lemma tail_not_empty (f : family) : tail_of f <> [].
Proof. destruct f; discriminate. Qed.

Lemma headers_differ (buffer : bytes) (i : nat) (f : family) :
  occurs_at (header_of f) buffer i ->
  occurs_at (header_of (other f)) buffer i -> False.
Proof.
  unfold occurs_at. intros H1 H2.
  destruct (skipn i buffer) as [|x l]; destruct f; simpl in H1, H2;
    try discriminate;
    apply andb_true_iff in H1 as [H1 _]; apply andb_true_iff in H2 as [H2 _];
    apply byte_eqb_eq in H1, H2; congruence.
Qed.

Lemma slice_from_nonneg (b : bytes) (n : nat) :
  slice_from b (Z.of_nat n) = skipn n b.
Proof.
  unfold slice_from.
  destruct (Z.ltb_spec (Z.of_nat n) 0); [lia|]. now rewrite Nat2Z.id.
Qed.

Ltac decide_tests :=
  repeat match goal with
         | |- context [Z.eqb ?a ?b] => destruct (Z.eqb_spec a b); try lia
         | |- context [Z.ltb ?a ?b] => destruct (Z.ltb_spec a b); try lia
         end;
  cbn [negb andb orb].

(** The earliest header has its tail: the round cuts the frame from the
    header to the end of the first tail after it, hands it over, and goes
    on with what follows the tail. *)
Lemma reader_step_extracts (buffer : bytes) (g : gui) (f : family)
    (s e : nat) :
  earliest_header buffer f s ->
  first_at (tail_of f) buffer (s + 4) e ->
  reader_step buffer g
  = (hand_over f (slice buffer (Z.of_nat s) (Z.of_nat (e + 4))) ;;
     ret (Continue (skipn (e + 4) buffer))) g.
Proof.
  intros [Hh Ho] Ht.
  pose proof (find_first_at _ _ 0 s (header_not_empty f) Hh) as Fh.
  pose proof (find_first_at _ _ _ e (tail_not_empty f) Ht) as Ft.
  assert (Fo : find (header_of (other f)) buffer 0 = -1
               \/ exists s', find (header_of (other f)) buffer 0 = Z.of_nat s'
                             /\ (s < s')%nat).
  { destruct Ho as [Ha | [s' [Hs' Hlt]]].
    - left. exact (find_absent _ _ 0 (header_not_empty _) Ha).
    - right. exists s'. split; auto.
      exact (find_first_at _ _ 0 s' (header_not_empty _) Hs'). }
  change (Z.of_nat 0) with 0 in Fh.
  replace (Z.of_nat (s + 4)) with (Z.of_nat s + 4) in Ft by lia.
  unfold reader_step, hand_over.
  destruct f; cbn [header_of tail_of other received parse_frame] in *;
    rewrite Fh;
    change (len TARGET_FRAME_HEADER) with 4;
    change (len CONFIG_HEADER) with 4;
    change (len TARGET_FRAME_TAIL) with 4;
    change (len CONFIG_TAIL) with 4;
    rewrite Ft;
    (destruct Fo as [Fo | [s' [Fo Hlt]]]; rewrite Fo);
    decide_tests;
    replace (Z.of_nat e + 4) with (Z.of_nat (e + 4)) by lia;
    rewrite slice_from_nonneg; symmetry; apply bind_assoc.
Qed.

(** The earliest header has no tail yet: the round leaves the loop with the
    buffer as it is, whatever its length, and nothing is recorded. *)
Lemma reader_step_waits (buffer : bytes) (g : gui) (f : family) (s : nat) :
  earliest_header buffer f s ->
  absent_from (tail_of f) buffer (s + 4) ->
  reader_step buffer g = (Returned (Break buffer), g).
Proof.
  intros [Hh Ho] Ht.
  pose proof (find_first_at _ _ 0 s (header_not_empty f) Hh) as Fh.
  pose proof (find_absent _ _ _ (tail_not_empty f) Ht) as Ft.
  assert (Fo : find (header_of (other f)) buffer 0 = -1
               \/ exists s', find (header_of (other f)) buffer 0 = Z.of_nat s'
                             /\ (s < s')%nat).
  { destruct Ho as [Ha | [s' [Hs' Hlt]]].
    - left. exact (find_absent _ _ 0 (header_not_empty _) Ha).
    - right. exists s'. split; auto.
      exact (find_first_at _ _ 0 s' (header_not_empty _) Hs'). }
  change (Z.of_nat 0) with 0 in Fh.
  replace (Z.of_nat (s + 4)) with (Z.of_nat s + 4) in Ft by lia.
  unfold reader_step.
  destruct f; cbn [header_of tail_of other] in *;
    rewrite Fh;
    change (len TARGET_FRAME_HEADER) with 4;
    change (len CONFIG_HEADER) with 4;
    rewrite Ft;
    (destruct Fo as [Fo | [s' [Fo Hlt]]]; rewrite Fo);
    decide_tests; reflexivity.
Qed.

(** Neither header is in the buffer: the round leaves the loop, and when the
    buffer is longer than 256 bytes it first records the overflow and keeps
    the last 256 bytes. *)
Lemma reader_step_no_header (buffer : bytes) (g : gui) :
  absent_from TARGET_FRAME_HEADER buffer 0 ->
  absent_from CONFIG_HEADER buffer 0 ->
  reader_step buffer g
  = if len buffer >? 256
    then (Returned (Break (skipn (length buffer - 256) buffer)),
          record g [overflow_record])
    else (Returned (Break buffer), g).
Proof.
  intros Ht Hc.
  pose proof (find_absent _ _ 0 (header_not_empty Target) Ht) as Ft.
  pose proof (find_absent _ _ 0 (header_not_empty Config) Hc) as Fc.
  change (Z.of_nat 0) with 0 in Ft, Fc. cbn [header_of] in Ft, Fc.
  unfold reader_step. rewrite Ft, Fc. cbn [Z.eqb negb andb].
  destruct (len buffer >? 256); reflexivity.
Qed.

(** Every buffer is in one of the three situations above. *)
Lemma buffer_situation (buffer : bytes) :
  (exists f s,
     earliest_header buffer f s
     /\ ((exists e, first_at (tail_of f) buffer (s + 4) e)
         \/ absent_from (tail_of f) buffer (s + 4)))
  \/ (absent_from TARGET_FRAME_HEADER buffer 0
      /\ absent_from CONFIG_HEADER buffer 0).
Proof.
  assert (Htail : forall f s,
             (exists e, first_at (tail_of f) buffer (s + 4) e)
             \/ absent_from (tail_of f) buffer (s + 4)).
  { intros f s.
    destruct (find_spec (tail_of f) buffer (s + 4) (tail_not_empty f))
      as [[_ Ha] | [e [_ [He _]]]]; eauto. }
  destruct (find_spec TARGET_FRAME_HEADER buffer 0 (header_not_empty Target))
    as [[_ Ta] | [ts [_ [Tf _]]]];
    destruct (find_spec CONFIG_HEADER buffer 0 (header_not_empty Config))
      as [[_ Ca] | [cs [_ [Cf _]]]].
  - right. auto.
  - left. exists Config, cs. split; [|apply Htail].
    split; [exact Cf | left; exact Ta].
  - left. exists Target, ts. split; [|apply Htail].
    split; [exact Tf | left; exact Ca].
  - destruct (Nat.lt_trichotomy ts cs) as [H | [H | H]].
    + left. exists Target, ts. split; [|apply Htail].
      split; [exact Tf | right; exists cs; auto].
    + subst cs. exfalso.
      apply (headers_differ buffer ts Target); [apply Tf | apply Cf].
    + left. exists Config, cs. split; [|apply Htail].
      split; [exact Cf | right; exists ts; auto].
Qed.

(** ** The parsers never raise and never record a reception *)

Ltac run_parser :=
  unfold try_except, bind, lift, put, emit, ret, set_config_mode;
  repeat first
    [ progress cbn beta iota zeta
    | match goal with
      | |- context [match ?x with _ => _ end] =>
          lazymatch x with
          | context [match _ with _ => _ end] => fail
          | _ => destruct x
          end
      end ].

Lemma parse_frame_effects (f : family) (frame : bytes) (g : gui) :
  exists es m,
    parse_frame f frame g
    = (Returned tt,
       {| is_connected := is_connected g; serial_port := serial_port g;
          config_mode := m; trace := trace g ++ es |})
    /\ received_records es = [].
Proof.
  destruct f; cbn [parse_frame].
  - unfold parse_target_frame. run_parser;
      unfold record; cbn [is_connected serial_port config_mode trace];
      rewrite <- ?app_assoc;
      try (do 2 eexists; split; [reflexivity | reflexivity]).
    exists [], (config_mode g). rewrite app_nil_r. destruct g. auto.
  - unfold parse_config_frame. run_parser;
      unfold record; cbn [is_connected serial_port config_mode trace];
      rewrite <- ?app_assoc;
      try (do 2 eexists; split; [reflexivity | reflexivity]).
    exists [], (config_mode g). rewrite app_nil_r. destruct g. auto.
Qed.

(** ** The whole loop *)

Lemma slice_skipn (b : bytes) (k s t : nat) :
  slice (skipn k b) (Z.of_nat s) (Z.of_nat t)
  = slice b (Z.of_nat (k + s)) (Z.of_nat (k + t)).
Proof.
  unfold slice. rewrite !Nat2Z.id, skipn_skipn.
  replace (k + t - (k + s))%nat with (t - s)%nat by lia.
  now replace (s + k)%nat with (k + s)%nat by lia.
Qed.

Lemma span_received_shift (b : bytes) (k : nat) (sp : span) :
  span_received b (shift k sp) = span_received (skipn k b) sp.
Proof.
  destruct sp as [[f s] t].
  unfold span_received, span_frame, shift, span_start, span_stop.
  cbn [fst snd]. now rewrite slice_skipn.
Qed.

Lemma span_ok_shift (b : bytes) (k : nat) (sp : span) :
  (k <= length b)%nat -> span_ok (skipn k b) sp -> span_ok b (shift k sp).
Proof.
  destruct sp as [[f s] t].
  unfold span_ok, shift, span_start, span_stop. cbn [fst snd].
  rewrite length_skipn. intros Hk [Hb [Hh Ht]].
  split; [lia|]. split.
  - now apply occurs_at_skipn.
  - apply occurs_at_skipn in Ht.
    now replace (k + t - 4)%nat with (k + (t - 4))%nat by lia.
Qed.

Lemma span_before_shift (k : nat) (x y : span) :
  span_before x y -> span_before (shift k x) (shift k y).
Proof.
  unfold span_before, shift, span_start, span_stop. cbn [fst snd]. lia.
Qed.

Lemma sorted_shift (k : nat) (spans : list span) :
  StronglySorted span_before spans ->
  StronglySorted span_before (map (shift k) spans).
Proof.
  induction 1 as [|x l Hl IH Hx]; cbn [map]; constructor; auto.
  rewrite Forall_map. revert Hx. apply Forall_impl.
  intros y. apply span_before_shift.
Qed.

Lemma is_received_received (f : family) (frame : bytes) :
  is_received (QueuePut (received f frame)) = true.
Proof. destruct f; reflexivity. Qed.

Lemma hand_over_effects (f : family) (frame : bytes) (g : gui) :
  exists es m,
    hand_over f frame g
    = (Returned tt,
       {| is_connected := is_connected g; serial_port := serial_port g;
          config_mode := m;
          trace := trace g ++ QueuePut (received f frame) :: es |})
    /\ received_records es = [].
Proof.
  unfold hand_over, bind, put, emit.
  destruct (parse_frame_effects f frame (record g [QueuePut (received f frame)]))
    as [es [m [Hrun Hes]]].
  rewrite Hrun. exists es, m. split; auto.
  unfold record. cbn [is_connected serial_port trace].
  now rewrite <- app_assoc.
Qed.

(** A round that extracts a frame, followed by a loop on the rest that ends
    well, is a loop that ends well; the frame extracted comes first. *)
Lemma loop_extraction_case (fuel : nat) (buffer : bytes) (g : gui)
    (f : family) (s e : nat) :
  earliest_header buffer f s ->
  first_at (tail_of f) buffer (s + 4) e ->
  (forall g1, exists spans,
      emits_in_order (reader_loop fuel (skipn (e + 4) buffer))
        (skipn (e + 4) buffer) g1 spans) ->
  exists spans,
    emits_in_order (reader_loop (S fuel) buffer) buffer g
      ((f, s, (e + 4)%nat) :: spans).
Proof.
  intros Hh Ht Hrest.
  pose proof (occurs_at_bound _ _ _ (tail_not_empty f) (proj1 (proj2 Ht)))
    as Hbound.
  assert (Hlen : length (tail_of f) = 4%nat) by (destruct f; reflexivity).
  rewrite Hlen in Hbound.
  destruct (hand_over_effects f
              (slice buffer (Z.of_nat s) (Z.of_nat (e + 4))) g)
    as [es1 [m [Hrun Hes1]]].
  destruct (Hrest {| is_connected := is_connected g;
                     serial_port := serial_port g; config_mode := m;
                     trace := trace g
                              ++ QueuePut
                                   (received f
                                      (slice buffer (Z.of_nat s)
                                         (Z.of_nat (e + 4))))
                                 :: es1 |})
    as [spans [rest [g' [es [Hloop [Htrace [Hrecv [Hok Hsorted]]]]]]]].
  exists (map (shift (e + 4)) spans), rest, g'.
  exists (QueuePut (received f (slice buffer (Z.of_nat s) (Z.of_nat (e + 4))))
          :: es1 ++ es).
  split; [|split; [|split; [|split]]].
  - cbn [reader_loop]. unfold bind at 1.
    rewrite (reader_step_extracts buffer g f s e Hh Ht).
    unfold bind at 1. rewrite Hrun. cbn [ret]. exact Hloop.
  - rewrite Htrace. cbn [trace]. rewrite <- app_assoc. reflexivity.
  - unfold received_records in *. cbn [filter map].
    rewrite is_received_received, filter_app, Hes1, Hrecv. cbn [app].
    f_equal. rewrite map_map. apply map_ext.
    intros sp. symmetry. apply span_received_shift.
  - constructor.
    + unfold span_ok, span_start, span_stop. cbn [fst snd].
      destruct Ht as [Hle [Hocc _]]. split; [lia|]. split.
      * apply Hh.
      * now replace (e + 4 - 4)%nat with e by lia.
    + rewrite Forall_map. revert Hok. apply Forall_impl.
      intros sp. apply span_ok_shift. lia.
  - constructor.
    + now apply sorted_shift.
    + rewrite Forall_map. apply Forall_forall. intros [[f' s'] t'] _.
      unfold span_before, shift, span_start, span_stop. cbn [fst snd].
      destruct Ht as [Hle _]. lia.
Qed.

(** The loop ends within [length buffer + 1] rounds, whatever the buffer. *)
Lemma reader_loop_total : forall (fuel : nat) (buffer : bytes) (g : gui),
  (length buffer < fuel)%nat ->
  exists spans, emits_in_order (reader_loop fuel buffer) buffer g spans.
Proof.
  induction fuel as [|fuel IH]; intros buffer g Hfuel; [lia|].
  destruct (buffer_situation buffer)
    as [[f [s [Hh [[e Ht] | Ht]]]] | [Hta Hca]].
  - destruct (loop_extraction_case fuel buffer g f s e Hh Ht) as [spans H].
    + intros g1. apply IH. rewrite length_skipn.
      pose proof (occurs_at_bound _ _ _ (tail_not_empty f)
                    (proj1 (proj2 Ht))) as Hbound.
      assert (length (tail_of f) = 4%nat) by (destruct f; reflexivity).
      lia.
    + eauto.
  - exists [], buffer, g, []. cbn [reader_loop]. unfold bind.
    rewrite (reader_step_waits buffer g f s Hh Ht).
    rewrite app_nil_r. repeat split; constructor.
  - exists []. unfold emits_in_order. cbn [reader_loop]. unfold bind.
    rewrite (reader_step_no_header buffer g Hta Hca).
    destruct (len buffer >? 256).
    + exists (skipn (length buffer - 256) buffer), (record g [overflow_record]),
        [overflow_record].
      repeat split; constructor.
    + exists buffer, g, []. rewrite app_nil_r. repeat split; constructor.
Qed.

(** A pass always ends, and normally: the rounds given to it are enough. *)
Lemma reader_pass_total (buffer : bytes) (g : gui) :
  exists rest g', reader_pass buffer g = (Returned (Some rest), g').
Proof.
  destruct (reader_loop_total (S (length buffer)) buffer g (Nat.lt_succ_diag_r _))
    as [spans [rest [g' [es [Hrun _]]]]].
  now exists rest, g'.
Qed.

(** ** Which frame comes first *)


Lemma find_none_absent (sub b : bytes) (start : nat) :
  sub <> [] -> find sub b (Z.of_nat start) = -1 -> absent_from sub b start.
Proof.
  intros Hne Hf.
  destruct (find_spec sub b start Hne) as [[_ Ha] | [k [Hk _]]]; auto.
  rewrite Hf in Hk. lia.
Qed.



(** The same two frames in either order: each time the one that starts
    first in the buffer is handed over first. *)
Example config_frame_first :
  queue_of
    (trace
       (snd
          (reader_pass
             ((CONFIG_HEADER ++ [x02; x00; xff; x01] ++ CONFIG_TAIL)
              ++ (TARGET_FRAME_HEADER
                  ++ [x07; x00; x01; x00; x80; x0a; x01; x1e; x05]
                  ++ TARGET_FRAME_TAIL))
             {| is_connected := true; serial_port := Some [];
                config_mode := false; trace := [] |})))
  = [log "recv" "RECEIVED (Config): FD FC FB FA 02 00 FF 01 04 03 02 01";
     config_mode_enabled;
     log "info" "Configuration mode enabled";
     log "recv"
       "RECEIVED (Target): F4 F3 F2 F1 07 00 01 00 80 0A 01 1E 05 F8 F7 F6 F5";
     targets
       [{| x_m := times_sin_radians 10 0; y_m := times_cos_radians 10 0;
           speed_kmh := -30; distance_m := 10; angle_deg := 0; snr := 5 |}]].
Proof. reflexivity. Qed.

Example target_frame_first :
  queue_of
    (trace
       (snd
          (reader_pass
             ((TARGET_FRAME_HEADER
               ++ [x07; x00; x01; x00; x80; x0a; x01; x1e; x05]
               ++ TARGET_FRAME_TAIL)
              ++ (CONFIG_HEADER ++ [x02; x00; xff; x01] ++ CONFIG_TAIL))
             {| is_connected := true; serial_port := Some [];
                config_mode := false; trace := [] |})))
  = [log "recv"
       "RECEIVED (Target): F4 F3 F2 F1 07 00 01 00 80 0A 01 1E 05 F8 F7 F6 F5";
     targets
       [{| x_m := times_sin_radians 10 0; y_m := times_cos_radians 10 0;
           speed_kmh := -30; distance_m := 10; angle_deg := 0; snr := 5 |}];
     log "recv" "RECEIVED (Config): FD FC FB FA 02 00 FF 01 04 03 02 01";
     config_mode_enabled;
     log "info" "Configuration mode enabled"].
Proof. reflexivity. Qed.

(** ** Buffer overflow *)

(** The claim C2 fails on this buffer of 304 bytes: a target header followed
    by 300 zero bytes.  No complete frame of either family is in it, yet a
    pass leaves it as it is, longer than 256 bytes, and records nothing. *)
Lemma overflow_with_header_counterexample :
  let buffer := TARGET_FRAME_HEADER ++ repeat x00 300 in
  len buffer > 256
  /\ ~ complete_frame Target buffer
  /\ ~ complete_frame Config buffer
  /\ (forall g, reader_pass buffer g = (Returned (Some buffer), g))
  /\ ~ (len buffer <= 256).
Proof.
  cbv zeta.
  assert (Ht : find TARGET_FRAME_TAIL
                 (TARGET_FRAME_HEADER ++ repeat x00 300) (Z.of_nat 0) = -1)
    by (vm_compute; reflexivity).
  assert (Hc : find CONFIG_HEADER
                 (TARGET_FRAME_HEADER ++ repeat x00 300) (Z.of_nat 0) = -1)
    by (vm_compute; reflexivity).
  split; [reflexivity|]. split; [|split; [|split]].
  - intros [i [j [_ [Hj _]]]].
    exact (find_none_absent _ _ 0%nat (tail_not_empty Target) Ht j
             (Nat.le_0_l j) Hj).
  - intros [i [j [Hi _]]].
    exact (find_none_absent _ _ 0%nat (header_not_empty Config) Hc i
             (Nat.le_0_l i) Hi).
  - intros g. vm_compute. reflexivity.
  - intros H. apply H. reflexivity.
Qed.

(** C2, as the code has it: when neither family's header is in the buffer
    and the buffer is longer than 256 bytes, a pass keeps exactly the last
    256 bytes and records the overflow once, and nothing else.  When the
    earliest header in the buffer has no tail of its family after it, a pass
    leaves the buffer as it is, whatever its length, and records nothing. *)
Theorem overflow_flush_without_header :
  forall (buffer waiting : bytes) (g : gui) (f : family) (s : nat),
    len buffer > 256 ->
    absent_from TARGET_FRAME_HEADER buffer 0 ->
    absent_from CONFIG_HEADER buffer 0 ->
    earliest_header waiting f s ->
    absent_from (tail_of f) waiting (s + 4) ->
    reader_pass buffer g
    = (Returned (Some (skipn (length buffer - 256) buffer)),
       record g [overflow_record])
    /\ len (skipn (length buffer - 256) buffer) = 256
    /\ reader_pass waiting g = (Returned (Some waiting), g).
Proof.
  intros buffer waiting g f s Hlen Hta Hca Hh Ht.
  unfold reader_pass. cbn [reader_loop]. unfold bind.
  rewrite (reader_step_no_header buffer g Hta Hca).
  rewrite (reader_step_waits waiting g f s Hh Ht).
  destruct (Z.gtb_spec (len buffer) 256) as [_|H]; [|lia].
  repeat split. unfold len in *. rewrite length_skipn. lia.
Qed.

Lemma overflow_flush_without_header_witness :
  let g := {| is_connected := true; serial_port := Some [];
              config_mode := false; trace := [] |} in
  reader_pass (repeat x00 300) g
  = (Returned (Some (repeat x00 256)), record g [overflow_record])
  /\ len (repeat x00 256) = 256
  /\ reader_pass (TARGET_FRAME_HEADER ++ repeat x00 300) g
     = (Returned (Some (TARGET_FRAME_HEADER ++ repeat x00 300)), g).
Proof.
  cbv zeta.
  assert (Ha : forall sub, sub <> [] ->
             find sub (repeat x00 300) (Z.of_nat 0) = -1 ->
             absent_from sub (repeat x00 300) 0).
  { intros sub Hne. apply find_none_absent. exact Hne. }
  apply (overflow_flush_without_header (repeat x00 300)
           (TARGET_FRAME_HEADER ++ repeat x00 300)
           {| is_connected := true; serial_port := Some [];
              config_mode := false; trace := [] |} Target 0%nat).
  - reflexivity.
  - apply Ha; [discriminate | vm_compute; reflexivity].
  - apply Ha; [discriminate | vm_compute; reflexivity].
  - split.
    + split; [lia|]. split; [reflexivity|]. intros j Hj. lia.
    + left. apply (find_none_absent _ _ 0%nat); [discriminate|].
      vm_compute; reflexivity.
  - apply (find_none_absent _ _ 4%nat); [discriminate|].
    vm_compute; reflexivity.
Defined.

(** ** The frames the command senders put on the wire *)

Lemma byte_val_byte_of (v : Z) : 0 <= v < 256 -> byte_val (byte_of v) = v.
Proof.
  intros Hv. unfold byte_val, byte_of.
  destruct (Byte.of_N (Z.to_N v)) as [b|] eqn:E.
  - apply Byte.to_of_N in E. rewrite E. lia.
  - apply Byte.of_N_None_iff in E. lia.
Qed.

Lemma endswith_app (l t : bytes) : endswith t (l ++ t) = true.
Proof.
  unfold endswith. rewrite length_app.
  replace (length l + length t - length t)%nat with (length l) by lia.
  rewrite skipn_app, skipn_all, Nat.sub_diag. cbn [app skipn].
  pose proof (startswith_app t []) as H. rewrite app_nil_r in H.
  rewrite H, andb_true_r. apply Nat.leb_le. lia.
Qed.

(** The layout of a write frame: header, length of the arguments plus two,
    command word, arguments, tail; twelve bytes and the arguments. *)
Lemma write_frame_layout (command_word : Z) (value_bytes : bytes) :
  0 <= command_word <= 65535 ->
  len value_bytes + 2 <= 65535 ->
  startswith CONFIG_HEADER (write_frame command_word value_bytes) = true
  /\ endswith CONFIG_TAIL (write_frame command_word value_bytes) = true
  /\ len (write_frame command_word value_bytes) = 12 + len value_bytes
  /\ u16le_at (write_frame command_word value_bytes) 4 = len value_bytes + 2
  /\ u16le_at (write_frame command_word value_bytes) 6 = command_word
  /\ slice (write_frame command_word value_bytes) 8 (8 + len value_bytes)
     = value_bytes.
Proof.
  intros Hcw Hlen.
  assert (Hl : 0 <= len value_bytes) by (unfold len; lia).
  unfold write_frame. split; [reflexivity|]. split; [|split; [|split; [|split]]].
  - rewrite !app_assoc. apply endswith_app.
  - unfold len, CONFIG_HEADER, CONFIG_TAIL. rewrite !length_app.
    cbn [length]. lia.
  - unfold u16le_at, u8_at. cbn [app nth CONFIG_HEADER].
    rewrite !byte_val_byte_of.
    + pose proof (Z.div_mod (len value_bytes + 2) 256 ltac:(lia)). lia.
    + split; [apply Z.div_pos | apply Z.div_lt_upper_bound]; lia.
    + apply Z.mod_pos_bound; lia.
  - unfold u16le_at, u8_at. cbn [app nth CONFIG_HEADER].
    rewrite !byte_val_byte_of.
    + pose proof (Z.div_mod command_word 256 ltac:(lia)). lia.
    + split; [apply Z.div_pos | apply Z.div_lt_upper_bound]; lia.
    + apply Z.mod_pos_bound; lia.
  - unfold slice, len. cbn [app CONFIG_HEADER].
    change (Z.to_nat 8) with 8%nat. cbn [skipn].
    replace (Z.to_nat (8 + Z.of_nat (length value_bytes)) - 8)%nat
      with (length value_bytes) by lia.
    rewrite firstn_app, firstn_all, Nat.sub_diag. cbn [firstn].
    apply app_nil_r.
Qed.

Ltac run_sender :=
  cbn -[len format_hex format_04X Z.div Z.modulo byte_of String.append].

Ltac close_writes :=
  unfold record; cbn [trace is_connected config_mode];
  rewrite ?writes_of_app; cbn [writes_of]; rewrite <- ?app_assoc;
  cbn [app]; rewrite ?app_nil_r.

(** X1: a write command on a connected object whose port accepts every
    call returns [True] after handing exactly three frames to the port, in
    this order: the enable frame, the frame of the command and the disable
    frame.  The frame of the command is a well-formed config frame: header,
    the length of the arguments plus two (little-endian), the command word
    (little-endian), the arguments, tail.  Sending changes neither the
    connection flag nor the config mode flag. *)
Theorem write_command_sends_three_frames :
  forall (command_word : Z) (value_bytes : bytes) (g : gui) (n : nat),
    is_connected g = true ->
    serial_port g = Some (repeat io_ok n) ->
    0 <= command_word <= 65535 ->
    len value_bytes + 2 <= 65535 ->
    exists g',
      send_write_config_command command_word value_bytes g
      = (Returned true, g')
      /\ writes_of (trace g')
         = writes_of (trace g)
           ++ [enable_frame; write_frame command_word value_bytes;
               disable_frame]
      /\ is_connected g' = true
      /\ config_mode g' = config_mode g
      /\ startswith CONFIG_HEADER (write_frame command_word value_bytes) = true
      /\ endswith CONFIG_TAIL (write_frame command_word value_bytes) = true
      /\ len (write_frame command_word value_bytes) = 12 + len value_bytes
      /\ u16le_at (write_frame command_word value_bytes) 4
         = len value_bytes + 2
      /\ u16le_at (write_frame command_word value_bytes) 6 = command_word
      /\ slice (write_frame command_word value_bytes) 8 (8 + len value_bytes)
         = value_bytes.
Proof.
  intros command_word value_bytes [c p m t] n Hc Hp Hcw Hlen.
  cbn [is_connected serial_port trace config_mode] in *. subst c p.
  pose proof (write_frame_layout command_word value_bytes Hcw Hlen) as Hlay.
  assert (Hlen' : 0 <= len value_bytes + 2 <= 65535)
    by (unfold len in Hlen |- *; lia).
  apply pack_H_in_range in Hcw, Hlen'.
  assert (Hmain :
            exists g',
              send_write_config_command command_word value_bytes
                {| is_connected := true; serial_port := Some (repeat io_ok n);
                   config_mode := m; trace := t |}
              = (Returned true, g')
              /\ writes_of (trace g')
                 = writes_of t
                   ++ [enable_frame; write_frame command_word value_bytes;
                       disable_frame]
              /\ is_connected g' = true
              /\ config_mode g' = m).
  { unfold send_write_config_command, try_except, bind, lift, pack_H.
    do 6 (destruct n as [|n];
          [run_sender; rewrite ?Hcw, ?Hlen'; run_sender;
           eexists; split; [reflexivity|]; close_writes;
           split; [reflexivity|]; split; reflexivity|]).
    run_sender; rewrite ?Hcw, ?Hlen'; run_sender.
    eexists; split; [reflexivity|]; close_writes.
    split; [reflexivity|]; split; reflexivity. }
  destruct Hmain as [g' [H1 [H2 [H3 H4]]]].
  exists g'. split; [exact H1|]. split; [exact H2|].
  split; [exact H3|]. split; [exact H4|]. exact Hlay.
Qed.

Lemma write_command_sends_three_frames_witness :
  exists g',
    send_write_config_command CONFIG_CMD_SET_SENSITIVITY
      [x05; x04; x00; x00]
      {| is_connected := true; serial_port := Some [];
         config_mode := false; trace := [] |}
    = (Returned true, g')
    /\ writes_of (trace g')
       = [enable_frame;
          CONFIG_HEADER ++ [x06; x00; x03; x00; x05; x04; x00; x00]
          ++ CONFIG_TAIL;
          disable_frame].
Proof.
  destruct (write_command_sends_three_frames CONFIG_CMD_SET_SENSITIVITY
              [x05; x04; x00; x00]
              {| is_connected := true; serial_port := Some [];
                 config_mode := false; trace := [] |}
              0%nat eq_refl eq_refl)
    as [g' [Hrun [Hw _]]].
  - split; discriminate.
  - discriminate.
  - exists g'. split; [exact Hrun | exact Hw].
Defined.

(** X2: a read command on a connected object whose port accepts every call
    hands one frame to the port and returns [True]; the frame is the write
    frame of the same command word without arguments: twelve bytes, with
    length field 2.  Its records are the sent record of the frame and the
    note of the command word in hexadecimal. *)
Theorem read_command_sends_one_frame :
  forall (command_word : Z) (g : gui) (n : nat),
    is_connected g = true ->
    serial_port g = Some (repeat io_ok n) ->
    0 <= command_word <= 65535 ->
    exists g',
      send_read_command command_word g = (Returned true, g')
      /\ writes_of (trace g')
         = writes_of (trace g) ++ [write_frame command_word []]
      /\ queue_of (trace g')
         = queue_of (trace g)
           ++ [log "sent"
                 ("SENT: " ++ format_hex (write_frame command_word []));
               log "info"
                 ("Sent read command: 0x" ++ format_04X command_word)]
      /\ len (write_frame command_word []) = 12
      /\ u16le_at (write_frame command_word []) 4 = 2
      /\ u16le_at (write_frame command_word []) 6 = command_word.
Proof.
  intros command_word [c p m t] n Hc Hp Hcw.
  cbn [is_connected serial_port trace config_mode] in *. subst c p.
  destruct (write_frame_layout command_word [] Hcw ltac:(discriminate))
    as [_ [_ [L1 [L2 [L3 _]]]]].
  apply pack_H_in_range in Hcw.
  assert (Hmain :
            exists g',
              send_read_command command_word
                {| is_connected := true; serial_port := Some (repeat io_ok n);
                   config_mode := m; trace := t |}
              = (Returned true, g')
              /\ writes_of (trace g')
                 = writes_of t ++ [write_frame command_word []]
              /\ queue_of (trace g')
                 = queue_of t
                   ++ [log "sent"
                         ("SENT: "
                          ++ format_hex (write_frame command_word []));
                       log "info"
                         ("Sent read command: 0x"
                          ++ format_04X command_word)]).
  { unfold send_read_command, try_except, bind, lift, pack_H.
    do 2 (destruct n as [|n];
          [run_sender; rewrite ?Hcw; run_sender;
           eexists; split; [reflexivity|];
           unfold record; cbn [trace];
           rewrite ?writes_of_app, ?queue_of_app;
           cbn [writes_of queue_of]; rewrite <- ?app_assoc; cbn [app];
           rewrite ?app_nil_r;
           split; reflexivity|]).
    run_sender; rewrite ?Hcw; run_sender.
    eexists; split; [reflexivity|].
    unfold record; cbn [trace].
    rewrite ?writes_of_app, ?queue_of_app.
    cbn [writes_of queue_of]; rewrite <- ?app_assoc; cbn [app].
    rewrite ?app_nil_r.
    split; reflexivity. }
  destruct Hmain as [g' [H1 [H2 H3]]].
  exists g'. repeat (split; [assumption|]). assumption.
Qed.

Lemma read_command_sends_one_frame_witness :
  exists g',
    send_read_command CONFIG_CMD_READ_SENSITIVITY
      {| is_connected := true; serial_port := Some [];
         config_mode := false; trace := [] |}
    = (Returned true, g')
    /\ writes_of (trace g')
       = [CONFIG_HEADER ++ [x02; x00; x13; x00] ++ CONFIG_TAIL].
Proof.
  destruct (read_command_sends_one_frame CONFIG_CMD_READ_SENSITIVITY
              {| is_connected := true; serial_port := Some [];
                 config_mode := false; trace := [] |}
              0%nat eq_refl eq_refl)
    as [g' [Hrun [Hw _]]].
  - split; discriminate.
  - exists g'. split; [exact Hrun | exact Hw].
Defined.

(** X3: a command word that does not fit sixteen bits is refused by the
    packing, inside the sender.  The read command then writes nothing and
    returns [False].  The write command has by then already written the
    enable frame: it writes nothing more (no disable frame), shows the error
    box and returns [False]. *)
Theorem command_word_out_of_range :
  forall (command_word : Z) (value_bytes : bytes) (g : gui) (n : nat),
    is_connected g = true ->
    serial_port g = Some (repeat io_ok n) ->
    command_word < 0 \/ 65535 < command_word ->
    (exists g',
       send_read_command command_word g = (Returned false, g')
       /\ writes_of (trace g') = writes_of (trace g))
    /\ (exists g' message,
          send_write_config_command command_word value_bytes g
          = (Returned false, g')
          /\ writes_of (trace g') = writes_of (trace g) ++ [enable_frame]
          /\ exists es,
               trace g' = trace g ++ es ++ [ShowError "Error" message]).
Proof.
  intros command_word value_bytes [c p m t] n Hc Hp Hcw.
  cbn [is_connected serial_port trace config_mode] in *. subst c p.
  assert (Hbad : (0 <=? command_word) && (command_word <=? 65535) = false).
  { apply andb_false_iff.
    destruct Hcw; [left; apply Z.leb_gt | right; apply Z.leb_gt]; lia. }
  split.
  - unfold send_read_command, try_except, bind, lift, pack_H.
    run_sender. rewrite Hbad. run_sender.
    eexists. split; [reflexivity|]. close_writes. reflexivity.
  - unfold send_write_config_command, try_except, bind, lift, pack_H.
    do 2 (destruct n as [|n];
          [run_sender; rewrite Hbad; run_sender;
           do 2 eexists; split; [reflexivity|]; close_writes;
           split; [reflexivity|];
           eexists; f_equal;
           match goal with
           | |- ?l = ?q ++ _ => unify q (removelast l)
           end; reflexivity|]).
    run_sender; rewrite Hbad; run_sender.
    do 2 eexists; split; [reflexivity|]; close_writes.
    split; [reflexivity|].
    eexists; f_equal.
    match goal with
    | |- ?l = ?q ++ _ => unify q (removelast l)
    end; reflexivity.
Qed.

Lemma command_word_out_of_range_witness :
  exists g',
    send_write_config_command 0x10000 []
      {| is_connected := true; serial_port := Some [];
         config_mode := false; trace := [] |}
    = (Returned false, g')
    /\ writes_of (trace g') = [enable_frame].
Proof.
  destruct (command_word_out_of_range 0x10000 []
              {| is_connected := true; serial_port := Some [];
                 config_mode := false; trace := [] |}
              0%nat eq_refl eq_refl)
    as [_ [g' [message [Hrun [Hw _]]]]].
  - right. reflexivity.
  - exists g'. split; [exact Hrun | exact Hw].
Defined.

(** ** The target parser on arbitrary bytes *)

(** X4: whatever bytes it is given, [parse_target_frame] returns normally
    and does one of three things.  If the header or the tail is wrong it
    puts the invalid-format error record.  If they are right and the frame
    has fewer than twelve bytes it does nothing.  Otherwise it puts one
    batch: as many readings as the count byte says or as fit before the tail,
    whichever is less (so at most 255, and never a record that reaches into
    the tail), each with angle in -128..127, distance and signal-to-noise in
    0..255 and speed in -255..255.  The handler of parsing errors is never
    reached. *)
Theorem target_parser_outcomes :
  forall (frame : bytes) (g : gui),
    (startswith TARGET_FRAME_HEADER frame && endswith TARGET_FRAME_TAIL frame
     = false
     /\ parse_target_frame frame g
        = (Returned tt,
           record g [QueuePut (log "error" "Invalid target frame format.")]))
    \/ (startswith TARGET_FRAME_HEADER frame
        && endswith TARGET_FRAME_TAIL frame = true
        /\ len frame < 12
        /\ parse_target_frame frame g = (Returned tt, g))
    \/ (startswith TARGET_FRAME_HEADER frame
        && endswith TARGET_FRAME_TAIL frame = true
        /\ 12 <= len frame
        /\ exists batch,
             parse_target_frame frame g
             = (Returned tt, record g [QueuePut (targets batch)])
             /\ length batch
                = Nat.min (Z.to_nat (u8_at frame 6)) (complete_records frame)
             /\ (length batch <= 255)%nat
             /\ 12 + 5 * Z.of_nat (length batch) <= len frame
             /\ Forall
                  (fun r =>
                     -128 <= angle_deg r <= 127
                     /\ 0 <= distance_m r <= 255
                     /\ -255 <= speed_kmh r <= 255
                     /\ 0 <= snr r <= 255)
                  batch).
Proof.
  intros frame g.
  destruct (startswith TARGET_FRAME_HEADER frame) eqn:Hs;
    [destruct (endswith TARGET_FRAME_TAIL frame) eqn:He|].
  - destruct (Z.lt_ge_cases (len frame) 12) as [Hlt|Hge].
    + right. left. split; [reflexivity|]. split; [exact Hlt|].
      unfold parse_target_frame, try_except. rewrite Hs, He. cbn [negb orb].
      destruct (Z.ltb_spec (len frame) 12); [reflexivity | lia].
    + right. right. split; [reflexivity|]. split; [exact Hge|].
      eexists. split; [now apply parse_target_frame_valid|].
      rewrite length_map, length_seq.
      pose proof (u8_at_range frame 6) as Hcount.
      assert (Hk : (5 * complete_records frame <= length frame - 12)%nat).
      { unfold complete_records.
        apply (Nat.Div0.mul_div_le (length frame - 12) 5). }
      unfold len in *.
      split; [reflexivity|]. split; [lia|]. split; [lia|].
      apply Forall_map, Forall_forall. intros i _.
      unfold spec_reading. cbn [angle_deg distance_m speed_kmh snr].
      pose proof (u8_at_range frame (8 + 5 * i)).
      pose proof (u8_at_range frame (8 + 5 * i + 1)).
      pose proof (u8_at_range frame (8 + 5 * i + 3)).
      pose proof (u8_at_range frame (8 + 5 * i + 4)).
      destruct (u8_at frame (8 + 5 * i + 2) =? 1); lia.
  - left. split; [reflexivity|].
    unfold parse_target_frame, try_except. rewrite Hs, He. reflexivity.
  - left. split; [reflexivity|].
    unfold parse_target_frame, try_except. rewrite Hs. reflexivity.
Qed.

(** ** The config parser on arbitrary bytes *)

(** A config frame with the right header and tail and at least twelve
    bytes: the parser returns normally, sets the config mode flag by the
    command word, and puts no error record. *)
Lemma parse_config_frame_valid (frame : bytes) (g : gui) :
  startswith CONFIG_HEADER frame = true ->
  endswith CONFIG_TAIL frame = true ->
  12 <= len frame ->
  exists es m,
    parse_config_frame frame g
    = (Returned tt,
       {| is_connected := is_connected g; serial_port := serial_port g;
          config_mode := m; trace := trace g ++ es |})
    /\ m = (if u16le_at frame 6 =? CONFIG_CMD_ENABLE_ACK then true
            else if u16le_at frame 6 =? CONFIG_CMD_DISABLE_ACK then false
            else config_mode g)
    /\ Forall (fun e => is_error e = false) es
    /\ (0 < length es <= 2)%nat.
Proof.
  intros Hs He Hl.
  unfold parse_config_frame, try_except. rewrite Hs, He. cbn [negb orb].
  destruct (Z.ltb_spec (len frame) 12); [lia|].
  unfold bind at 1, lift. rewrite unpack_command_word by assumption.
  assert (H4 : (len frame >=? 16) = true ->
               slice frame 10 14
               = [nth 10 frame x00; nth 11 frame x00;
                  nth 12 frame x00; nth 13 frame x00]).
  { intros H16. rewrite Z.geb_leb in H16. apply Z.leb_le in H16.
    unfold len in H16.
    change 10 with (Z.of_nat 10). change 14 with (Z.of_nat (10 + 4)).
    apply slice_four. lia. }
  assert (H2 : slice frame 10 12 = [nth 10 frame x00; nth 11 frame x00]).
  { unfold len in Hl.
    change 10 with (Z.of_nat 10). change 12 with (Z.of_nat (10 + 2)).
    apply slice_two. lia. }
  remember (u16le_at frame 6) as c eqn:Ec. clear Ec.
  unfold CONFIG_ACK_TARGET_PARAMS, CONFIG_ACK_SENSITIVITY,
    CONFIG_CMD_ENABLE_ACK, CONFIG_CMD_DISABLE_ACK,
    CONFIG_ACK_FIRMWARE_VERSION.
  destruct (len frame >=? 16) eqn:H16;
    [rewrite (H4 eq_refl)|]; rewrite H2;
    destruct (Z.eqb_spec c 0x0112);
    destruct (Z.eqb_spec c 0x0113); try lia;
    destruct (Z.eqb_spec c 0x01FF); try lia;
    destruct (Z.eqb_spec c 0x01FE); try lia;
    destruct (Z.eqb_spec c 0x01A0); try lia;
    cbn [andb];
    unfold bind, lift, put, emit, set_config_mode, unpack_BBBB, unpack_H,
      record;
    cbn [is_connected serial_port config_mode trace];
    rewrite <- ?app_assoc; cbn [app];
    do 2 eexists; (split; [reflexivity|]);
    (split; [reflexivity|]);
    (split; [repeat constructor | cbn [length]; lia]).
Qed.

(** X5: the config mode flag follows the acknowledgments and nothing else.
    After [parse_config_frame] the flag is set if the frame has the right
    header and tail, at least twelve bytes and the enable acknowledgment as
    its command word; it is cleared if the command word is the disable
    acknowledgment; in every other case, invalid and short frames included,
    it is what it was. *)
Theorem config_mode_follows_acks :
  forall (frame : bytes) (g : gui),
    config_mode (snd (parse_config_frame frame g))
    = if startswith CONFIG_HEADER frame && endswith CONFIG_TAIL frame
         && (12 <=? len frame)
      then if u16le_at frame 6 =? CONFIG_CMD_ENABLE_ACK then true
           else if u16le_at frame 6 =? CONFIG_CMD_DISABLE_ACK then false
           else config_mode g
      else config_mode g.
Proof.
  intros frame g.
  destruct (startswith CONFIG_HEADER frame) eqn:Hs;
    [destruct (endswith CONFIG_TAIL frame) eqn:He|]; cbn [andb].
  - destruct (Z.leb_spec 12 (len frame)) as [Hl|Hl].
    + destruct (parse_config_frame_valid frame g Hs He Hl)
        as [es [m [Hrun [Hm _]]]].
      rewrite Hrun. cbn [snd config_mode]. exact Hm.
    + unfold parse_config_frame, try_except. rewrite Hs, He.
      cbn [negb orb].
      destruct (Z.ltb_spec (len frame) 12); [reflexivity | lia].
  - unfold parse_config_frame, try_except. rewrite Hs, He. reflexivity.
  - unfold parse_config_frame, try_except. rewrite Hs. reflexivity.
Qed.

(** X6: whatever bytes it is given, [parse_config_frame] returns normally,
    leaves the connection flag and the port alone and puts at most two items
    on the queue.  The only error record it can put is the invalid-format
    one, and only when the header or the tail is wrong: the handler of
    parsing errors is never reached, also not for acknowledgments too short
    for their payload. *)
Theorem config_parser_never_fails :
  forall (frame : bytes) (g : gui),
    exists es g',
      parse_config_frame frame g = (Returned tt, g')
      /\ trace g' = trace g ++ es
      /\ is_connected g' = is_connected g
      /\ serial_port g' = serial_port g
      /\ (length es <= 2)%nat
      /\ forall e,
           In e es -> is_error e = true ->
           e = QueuePut (log "error" "Invalid config frame format.")
           /\ startswith CONFIG_HEADER frame && endswith CONFIG_TAIL frame
              = false.
Proof.
  intros frame g.
  assert (Hinvalid :
            startswith CONFIG_HEADER frame && endswith CONFIG_TAIL frame
            = false ->
            parse_config_frame frame g
            = (Returned tt,
               record g
                 [QueuePut (log "error" "Invalid config frame format.")])).
  { intros H. unfold parse_config_frame, try_except.
    destruct (startswith CONFIG_HEADER frame);
      destruct (endswith CONFIG_TAIL frame); try discriminate H;
      reflexivity. }
  destruct (startswith CONFIG_HEADER frame && endswith CONFIG_TAIL frame)
    eqn:Hv.
  - apply andb_true_iff in Hv as [Hs He].
    destruct (Z.lt_ge_cases (len frame) 12) as [Hlt|Hge].
    + exists [], g. rewrite app_nil_r.
      split.
      { unfold parse_config_frame, try_except. rewrite Hs, He.
        cbn [negb orb].
        destruct (Z.ltb_spec (len frame) 12); [reflexivity | lia]. }
      split; [reflexivity|]. split; [reflexivity|]. split; [reflexivity|].
      split; [cbn; lia|]. intros e [].
    + destruct (parse_config_frame_valid frame g Hs He Hge)
        as [es [m [Hrun [_ [Hne Hlen]]]]].
      eexists es, _. split; [exact Hrun|].
      cbn [trace is_connected serial_port].
      split; [reflexivity|]. split; [reflexivity|]. split; [reflexivity|].
      split; [lia|]. intros e Hin Herr.
      rewrite Forall_forall in Hne. rewrite (Hne e Hin) in Herr.
      discriminate Herr.
  - eexists _, _. split; [apply Hinvalid; reflexivity|].
    unfold record. cbn [trace is_connected serial_port].
    split; [reflexivity|]. split; [reflexivity|]. split; [reflexivity|].
    split; [cbn; lia|]. intros e [<-|[]] _. split; reflexivity.
Qed.

(** ** What a pass keeps true *)

Lemma slice_startswith (h b : bytes) (s t : nat) :
  occurs_at h b s -> (s + length h <= t)%nat ->
  startswith h (slice b (Z.of_nat s) (Z.of_nat t)) = true.
Proof.
  unfold occurs_at, slice. intros Hocc Hlen. rewrite !Nat2Z.id.
  destruct (startswith_inv _ _ Hocc) as [r ->].
  rewrite firstn_app, firstn_all2 by lia. apply startswith_app.
Qed.

Lemma slice_endswith (tl b : bytes) (s e : nat) :
  tl <> [] -> occurs_at tl b e -> (s <= e)%nat ->
  endswith tl (slice b (Z.of_nat s) (Z.of_nat (e + length tl))) = true.
Proof.
  intros Hne Hocc Hse.
  pose proof (occurs_at_bound _ _ _ Hne Hocc) as Hbound.
  unfold endswith, slice. rewrite !Nat2Z.id.
  rewrite length_firstn, length_skipn.
  replace (Nat.min (e + length tl - s) (length b - s))
    with (e + length tl - s)%nat by lia.
  rewrite skipn_firstn_comm, skipn_skipn.
  replace (e + length tl - s - length tl + s)%nat with e by lia.
  replace (e + length tl - s - (e + length tl - s - length tl))%nat
    with (length tl) by lia.
  unfold occurs_at in Hocc. destruct (startswith_inv _ _ Hocc) as [r ->].
  rewrite firstn_app, firstn_all, Nat.sub_diag. cbn [firstn].
  rewrite app_nil_r.
  pose proof (startswith_app tl []) as H. rewrite app_nil_r in H.
  rewrite H, andb_true_r. apply Nat.leb_le. lia.
Qed.

Lemma absent_from_skipn (sub b : bytes) (k : nat) :
  absent_from sub b 0 -> absent_from sub (skipn k b) 0.
Proof.
  intros Ha j _ Hocc. apply occurs_at_skipn in Hocc.
  apply (Ha (k + j)%nat); [lia | exact Hocc].
Qed.

Lemma is_error_received (f : family) (frame : bytes) :
  is_error (QueuePut (received f frame)) = false.
Proof. destruct f; reflexivity. Qed.

(** A frame with the right header and tail of its family is parsed without
    any error record. *)
Lemma parse_frame_valid_no_error (f : family) (frame : bytes) (g : gui) :
  startswith (header_of f) frame = true ->
  endswith (tail_of f) frame = true ->
  exists es m,
    parse_frame f frame g
    = (Returned tt,
       {| is_connected := is_connected g; serial_port := serial_port g;
          config_mode := m; trace := trace g ++ es |})
    /\ Forall (fun e => is_error e = false) es.
Proof.
  intros Hs He. destruct f; cbn [parse_frame header_of tail_of] in *.
  - destruct (Z.lt_ge_cases (len frame) 12) as [Hlt|Hge].
    + exists [], (config_mode g). split; [|constructor].
      unfold parse_target_frame, try_except. rewrite Hs, He. cbn [negb orb].
      destruct (Z.ltb_spec (len frame) 12); [|lia].
      rewrite app_nil_r. destruct g; reflexivity.
    + rewrite (parse_target_frame_valid frame g Hs He Hge).
      eexists _, (config_mode g). split; [reflexivity|].
      repeat constructor.
  - destruct (Z.lt_ge_cases (len frame) 12) as [Hlt|Hge].
    + exists [], (config_mode g). split; [|constructor].
      unfold parse_config_frame, try_except. rewrite Hs, He. cbn [negb orb].
      destruct (Z.ltb_spec (len frame) 12); [|lia].
      rewrite app_nil_r. destruct g; reflexivity.
    + destruct (parse_config_frame_valid frame g Hs He Hge)
        as [es [m [Hrun [_ [Hne _]]]]].
      exists es, m. split; assumption.
Qed.

(** The frame a round cuts out has the header and the tail of its family. *)
Lemma extracted_frame_valid (buffer : bytes) (f : family) (s e : nat) :
  earliest_header buffer f s ->
  first_at (tail_of f) buffer (s + 4) e ->
  startswith (header_of f)
    (slice buffer (Z.of_nat s) (Z.of_nat (e + 4))) = true
  /\ endswith (tail_of f)
       (slice buffer (Z.of_nat s) (Z.of_nat (e + 4))) = true.
Proof.
  intros [[_ [Hh _]] _] [Hle [Ht _]].
  assert (Lh : length (header_of f) = 4%nat) by (destruct f; reflexivity).
  assert (Lt : length (tail_of f) = 4%nat) by (destruct f; reflexivity).
  split.
  - apply slice_startswith; [exact Hh | lia].
  - replace (e + 4)%nat with (e + length (tail_of f))%nat by lia.
    apply slice_endswith; [apply tail_not_empty | exact Ht | lia].
Qed.

Lemma hand_over_valid (f : family) (frame : bytes) (g : gui) :
  startswith (header_of f) frame = true ->
  endswith (tail_of f) frame = true ->
  exists es m,
    hand_over f frame g
    = (Returned tt,
       {| is_connected := is_connected g; serial_port := serial_port g;
          config_mode := m;
          trace := trace g ++ QueuePut (received f frame) :: es |})
    /\ Forall (fun e => is_error e = false) es.
Proof.
  intros Hs He. unfold hand_over, bind, put, emit.
  destruct (parse_frame_valid_no_error f frame
              (record g [QueuePut (received f frame)]) Hs He)
    as [es [m [Hrun Hes]]].
  rewrite Hrun. exists es, m. split; auto.
  unfold record. cbn [is_connected serial_port trace].
  now rewrite <- app_assoc.
Qed.

(** What holds when the loop ends, whatever the buffer: the flags of the
    connection are untouched, the buffer left is an end of the buffer given,
    no error was recorded except, as the very last effect, an overflow that
    leaves 256 bytes, and the buffer left makes the next round stop at once
    without any effect. *)
Lemma reader_loop_invariants : forall (fuel : nat) (buffer : bytes) (g : gui),
  (length buffer < fuel)%nat ->
  exists rest g' es k,
    reader_loop fuel buffer g = (Returned (Some rest), g')
    /\ is_connected g' = is_connected g
    /\ serial_port g' = serial_port g
    /\ (k <= length buffer)%nat /\ rest = skipn k buffer
    /\ Forall (fun e => is_error e = false) es
    /\ (trace g' = trace g ++ es
        \/ (trace g' = trace g ++ es ++ [overflow_record]
            /\ length rest = 256%nat
            /\ (256 < length buffer)%nat))
    /\ (forall g1, reader_step rest g1 = (Returned (Break rest), g1))
    /\ (absent_from TARGET_FRAME_HEADER rest 0 ->
        absent_from CONFIG_HEADER rest 0 -> (length rest <= 256)%nat).
Proof.
  induction fuel as [|fuel IH]; intros buffer g Hfuel; [lia|].
  destruct (buffer_situation buffer)
    as [[f [s [Hh [[e Ht] | Ht]]]] | [Hta Hca]].
  - pose proof (occurs_at_bound _ _ _ (tail_not_empty f) (proj1 (proj2 Ht)))
      as Hbound.
    assert (Lt : length (tail_of f) = 4%nat) by (destruct f; reflexivity).
    destruct (extracted_frame_valid buffer f s e Hh Ht) as [Hs He].
    destruct (hand_over_valid f _ g Hs He) as [es1 [m [Hrun Hes1]]].
    match type of Hrun with
    | _ = (_, ?g1) =>
        destruct (IH (skipn (e + 4) buffer) g1)
          as [rest [g' [es [k [Hloop [Hc [Hp [Hk [Hrest [Hes [Htr [Hst Hb]]]]]]]]]]]]
    end.
    { rewrite length_skipn. lia. }
    rewrite length_skipn in Hk.
    exists rest, g'.
    exists (QueuePut (received f (slice buffer (Z.of_nat s) (Z.of_nat (e + 4))))
            :: es1 ++ es), (k + (e + 4))%nat.
    split.
    { cbn [reader_loop]. unfold bind at 1.
      rewrite (reader_step_extracts buffer g f s e Hh Ht).
      unfold bind at 1. rewrite Hrun. cbn [ret]. exact Hloop. }
    split; [exact Hc|]. split; [exact Hp|]. split; [lia|].
    split; [rewrite Hrest; apply skipn_skipn|].
    split.
    { constructor; [apply is_error_received|].
      apply Forall_app. split; assumption. }
    split; [|split; assumption].
    cbn [trace] in Htr.
    destruct Htr as [Htr | [Htr [Hlen Hbig]]];
      [left | right; split;
                [|split; [exact Hlen | rewrite length_skipn in Hbig; lia]]];
      rewrite Htr; rewrite <- ?app_assoc; cbn [app];
      rewrite <- ?app_assoc; reflexivity.
  - exists buffer, g, [], 0%nat. cbn [reader_loop]. unfold bind.
    rewrite (reader_step_waits buffer g f s Hh Ht).
    rewrite app_nil_r.
    split; [reflexivity|]. split; [reflexivity|]. split; [reflexivity|].
    split; [lia|]. split; [reflexivity|]. split; [constructor|].
    split; [left; reflexivity|]. split.
    + intros g1. apply (reader_step_waits buffer g1 f s Hh Ht).
    + intros Ha Hb. exfalso. destruct Hh as [[_ [Hocc _]] _].
      destruct f; [apply (Ha s) | apply (Hb s)]; auto; lia.
  - cbn [reader_loop]. unfold bind.
    rewrite (reader_step_no_header buffer g Hta Hca).
    destruct (Z.gtb_spec (len buffer) 256) as [Hbig|Hsmall].
    + exists (skipn (length buffer - 256) buffer), (record g [overflow_record]),
        [], (length buffer - 256)%nat.
      assert (Hlen : length (skipn (length buffer - 256) buffer) = 256%nat).
      { rewrite length_skipn. unfold len in Hbig. lia. }
      split; [reflexivity|]. split; [reflexivity|]. split; [reflexivity|].
      split; [lia|]. split; [reflexivity|]. split; [constructor|].
      split; [right; split; [reflexivity|];
              split; [exact Hlen | unfold len in Hbig; lia]|]. split.
      * intros g1.
        rewrite (reader_step_no_header _ g1
                   (absent_from_skipn _ _ _ Hta) (absent_from_skipn _ _ _ Hca)).
        unfold len. rewrite Hlen. reflexivity.
      * intros _ _. lia.
    + exists buffer, g, [], 0%nat. rewrite app_nil_r.
      split; [reflexivity|]. split; [reflexivity|]. split; [reflexivity|].
      split; [lia|]. split; [reflexivity|]. split; [constructor|].
      split; [left; reflexivity|]. split.
      * intros g1. rewrite (reader_step_no_header buffer g1 Hta Hca).
        destruct (Z.gtb_spec (len buffer) 256); [lia | reflexivity].
      * intros _ _. unfold len in Hsmall. lia.
Qed.

(** X7: a pass of the synchronizer only ever removes bytes from the front:
    the buffer it leaves is an end of the buffer it was given.  The pass
    does not touch the connection flag or the port.  What it leaves is
    settled: a second pass on it changes nothing and records nothing.  And
    what it leaves is longer than 256 bytes only if a header is still in it,
    waiting for its tail. *)
Theorem pass_leaves_settled_suffix :
  forall (buffer : bytes) (g : gui),
    exists rest g' k,
      reader_pass buffer g = (Returned (Some rest), g')
      /\ (k <= length buffer)%nat /\ rest = skipn k buffer
      /\ is_connected g' = is_connected g
      /\ serial_port g' = serial_port g
      /\ (forall g1, reader_pass rest g1 = (Returned (Some rest), g1))
      /\ (absent_from TARGET_FRAME_HEADER rest 0 ->
          absent_from CONFIG_HEADER rest 0 -> (length rest <= 256)%nat).
Proof.
  intros buffer g.
  destruct (reader_loop_invariants (S (length buffer)) buffer g
              (Nat.lt_succ_diag_r _))
    as [rest [g' [es [k [Hloop [Hc [Hp [Hk [Hrest [_ [_ [Hst Hb]]]]]]]]]]]].
  exists rest, g', k. repeat (split; [assumption|]). split; [|exact Hb].
  intros g1. unfold reader_pass. cbn [reader_loop]. unfold bind.
  rewrite Hst. reflexivity.
Qed.

(** X8: the frames the synchronizer cuts out always have the header and the
    tail of their family, and the parsers never fail on them: in a pass the
    only error record there can be is the buffer overflow, at most once, as
    the last effect of the pass, and then exactly 256 bytes are left. *)
Theorem pass_records_no_parse_error :
  forall (buffer : bytes) (g : gui),
    exists rest g' es,
      reader_pass buffer g = (Returned (Some rest), g')
      /\ Forall (fun e => is_error e = false) es
      /\ (trace g' = trace g ++ es
          \/ (trace g' = trace g ++ es ++ [overflow_record]
              /\ length rest = 256%nat
              /\ len buffer > 256)).
Proof.
  intros buffer g.
  destruct (reader_loop_invariants (S (length buffer)) buffer g
              (Nat.lt_succ_diag_r _))
    as [rest [g' [es [k [Hloop [_ [_ [Hk [Hrest [Hes [Htr _]]]]]]]]]]].
  exists rest, g', es. split; [exact Hloop|]. split; [exact Hes|].
  destruct Htr as [Htr | [Htr [Hlen Hbig]]]; [left; exact Htr|].
  right. split; [exact Htr|]. split; [exact Hlen|]. unfold len. lia.
Qed.

(** ** A frame that arrives in pieces *)









(** ** The polling loop *)






Lemma reader_pass_state (buffer : bytes) (g : gui) :
  exists rest g1 es,
    reader_pass buffer g = (Returned (Some rest), g1)
    /\ is_connected g1 = is_connected g
    /\ serial_port g1 = serial_port g
    /\ trace g1 = trace g ++ es.
Proof.
  destruct (reader_loop_invariants (S (length buffer)) buffer g
              (Nat.lt_succ_diag_r _))
    as [rest [g1 [es [k [Hloop [Hc [Hp [_ [_ [_ [Htr _]]]]]]]]]]].
  destruct Htr as [Htr | [Htr _]].
  - exists rest, g1, es. auto.
  - exists rest, g1, (es ++ [overflow_record]). auto.
Qed.

(** One round of the polling loop without a port error: the bytes read are
    appended, a pass is made, and the loop sleeps; the round does not look
    at the polls to come. *)
Lemma serial_reader_clean_step (p : poll) (buffer : bytes) (g : gui)
    (o : list io_outcome) :
  is_connected g = true ->
  serial_port g = Some o ->
  (forall e, p <> port_error e) ->
  exists rest g1 es,
    (forall polls,
        serial_reader (p :: polls) buffer g = serial_reader polls rest g1)
    /\ is_connected g1 = true
    /\ serial_port g1 = Some o
    /\ trace g1 = trace g ++ es.
Proof.
  intros Hc Hp Hclean.
  set (buffer1 := match p with data chunk => buffer ++ chunk | _ => buffer end).
  destruct (reader_pass_state buffer1 g)
    as [rest [g1 [es [Hpass [Hc1 [Hp1 Htr]]]]]].
  exists rest, (record g1 [Sleep 10]), (es ++ [Sleep 10]).
  split; [|split; [|split]].
  - intros polls. cbn [serial_reader]. rewrite Hc. cbn [negb].
    unfold bind at 1, port_read. rewrite Hp.
    destruct p as [|chunk|e]; [| |destruct (Hclean e eq_refl)];
      subst buffer1; unfold bind at 1; rewrite Hpass; reflexivity.
  - unfold record. cbn [is_connected]. congruence.
  - unfold record. cbn [serial_port]. congruence.
  - unfold record. cbn [trace]. rewrite Htr. now rewrite <- app_assoc.
Qed.

(** The round in which the port raises. *)
Lemma serial_reader_error_step (e : string) (polls : list poll)
    (buffer : bytes) (g : gui) (o : list io_outcome) :
  is_connected g = true ->
  serial_port g = Some o ->
  serial_reader (port_error e :: polls) buffer g
  = (Returned buffer,
     {| is_connected := false; serial_port := Some o;
        config_mode := config_mode g;
        trace := trace g
                 ++ [QueuePut (log "error" ("Serial error: " ++ e));
                     QueuePut disconnect] |}).
Proof.
  intros Hc Hp. cbn [serial_reader]. rewrite Hc. cbn [negb].
  unfold bind at 1, port_read. rewrite Hp.
  unfold bind, put, emit, set_is_connected, ret, record.
  cbn [is_connected serial_port trace config_mode].
  rewrite Hp, <- app_assoc. reflexivity.
Qed.

(** X11: an exception of the port ends the polling loop, and nothing is
    raised out of it.  After any number of rounds without a port error, a
    round in which the port raises records the error, clears the connection
    flag and queues one disconnect item, in this order and as the last
    effects; the polls that would follow are never made. *)
Theorem port_error_ends_polling :
  forall (before after : list poll) (e : string) (buffer : bytes) (g : gui)
         (o : list io_outcome),
    is_connected g = true ->
    serial_port g = Some o ->
    Forall (fun p => forall e', p <> port_error e') before ->
    exists rest g' es,
      serial_reader (before ++ port_error e :: after) buffer g
      = (Returned rest, g')
      /\ is_connected g' = false
      /\ serial_port g' = Some o
      /\ trace g'
         = trace g ++ es
           ++ [QueuePut (log "error" ("Serial error: " ++ e));
               QueuePut disconnect]
      /\ serial_reader (before ++ [port_error e]) buffer g
         = (Returned rest, g').
Proof.
  induction before as [|p before IH]; intros after e buffer g o Hc Hp Hclean.
  - eexists buffer, _, []. cbn [app].
    rewrite !(serial_reader_error_step e _ buffer g o Hc Hp).
    cbn [is_connected serial_port trace]. repeat split; reflexivity.
  - inversion Hclean as [|? ? Hp0 Hrest]. subst.
    cbn [app].
    destruct (serial_reader_clean_step p buffer g o Hc Hp Hp0)
      as [rest1 [g1 [es1 [Hstep [Hc1 [Hp1 Htr1]]]]]].
    destruct (IH after e rest1 g1 o Hc1 Hp1 Hrest)
      as [rest [g' [es [Hrun [Hc' [Hp' [Htr' Hsame]]]]]]].
    exists rest, g', (es1 ++ es). rewrite !Hstep.
    split; [exact Hrun|]. split; [exact Hc'|]. split; [exact Hp'|].
    split; [|exact Hsame].
    rewrite Htr', Htr1, <- !app_assoc. reflexivity.
Qed.

Lemma port_error_ends_polling_witness :
  exists rest g' es,
    serial_reader
      ([no_data; data [xf4; xf3]] ++ port_error "device removed" :: [no_data])
      []
      {| is_connected := true; serial_port := Some [];
         config_mode := false; trace := [] |}
    = (Returned rest, g')
    /\ is_connected g' = false
    /\ serial_port g' = Some []
    /\ trace g'
       = [] ++ es
         ++ [QueuePut (log "error" "Serial error: device removed");
             QueuePut disconnect]
    /\ serial_reader ([no_data; data [xf4; xf3]] ++ [port_error "device removed"])
         []
         {| is_connected := true; serial_port := Some [];
            config_mode := false; trace := [] |}
       = (Returned rest, g').
Proof.
  apply (port_error_ends_polling [no_data; data [xf4; xf3]] [no_data]
           "device removed" []
           {| is_connected := true; serial_port := Some [];
              config_mode := false; trace := [] |} []);
    try reflexivity.
  repeat constructor; discriminate.
Defined.

(** ** The configuration form and the acknowledgments *)

Lemma pack_BBBB_inv (a b c d : Z) (v : bytes) :
  pack_BBBB a b c d = Returned v ->
  0 <= a < 256 /\ 0 <= b < 256 /\ 0 <= c < 256 /\ 0 <= d < 256
  /\ v = [byte_of a; byte_of b; byte_of c; byte_of d].
Proof.
  unfold pack_BBBB.
  destruct ((0 <=? a) && (a <=? 255) && (0 <=? b) && (b <=? 255)
            && (0 <=? c) && (c <=? 255) && (0 <=? d) && (d <=? 255)) eqn:E;
    [|discriminate].
  intros H. injection H as <-.
  repeat (apply andb_true_iff in E as [E ?]).
  repeat match goal with
         | H : (_ <=? _) = true |- _ => apply Z.leb_le in H
         end.
  repeat split; lia.
Qed.

Lemma direction_name_of_code (name : string) :
  In name ["Away Only"; "Approach Only"; "Approach & Away"]%string ->
  dict_get Z.eqb direction_names
    (dict_get String.eqb direction_codes name 0x02) "Approach & Away"%string
  = name
  /\ 0 <= dict_get String.eqb direction_codes name 0x02 <= 2.
Proof.
  intros [<-|[<-|[<-|[]]]]; split; try reflexivity; cbn; lia.
Qed.

(** The two acknowledgments that carry four bytes at offset 10. *)
Lemma parse_four_byte_ack (frame : bytes) (g : gui) (a b c d : byte) :
  startswith CONFIG_HEADER frame = true ->
  endswith CONFIG_TAIL frame = true ->
  16 <= len frame ->
  slice frame 10 14 = [a; b; c; d] ->
  (u16le_at frame 6 = CONFIG_ACK_TARGET_PARAMS ->
   parse_config_frame frame g
   = (Returned tt,
      record g
        [QueuePut
           (config_target_params (byte_val a) (byte_val b) (byte_val c)
              (byte_val d));
         QueuePut
           (log "info"
              ("Received target params: dist=" ++ format_int (byte_val a)
               ++ "m, dir=" ++ format_int (byte_val b)
               ++ ", speed=" ++ format_int (byte_val c)
               ++ "km/h, delay=" ++ format_int (byte_val d) ++ "s"))]))
  /\ (u16le_at frame 6 = CONFIG_ACK_SENSITIVITY ->
      parse_config_frame frame g
      = (Returned tt,
         record g
           [QueuePut (config_sensitivity (byte_val a) (byte_val b));
            QueuePut
              (log "info"
                 ("Received sensitivity: count=" ++ format_int (byte_val a)
                  ++ ", snr=" ++ format_int (byte_val b)))])).
Proof.
  intros Hs He Hl Hpay.
  assert (Hlen : (len frame >=? 16) = true).
  { rewrite Z.geb_leb. apply Z.leb_le. lia. }
  split; intros Hcmd;
    unfold parse_config_frame, try_except; rewrite Hs, He; cbn [negb orb];
    (destruct (Z.ltb_spec (len frame) 12); [lia|]);
    unfold bind at 1, lift; rewrite unpack_command_word by lia;
    rewrite Hcmd, Hlen; cbn [andb Z.eqb Pos.eqb
                                CONFIG_ACK_SENSITIVITY CONFIG_ACK_TARGET_PARAMS];
    unfold bind, lift; rewrite Hpay;
    cbn [unpack_BBBB]; unfold put, emit; now rewrite record_record.
Qed.

(** X12: the two direction tables are inverse to each other on the three
    directions, and everything else falls on the third.  A direction code
    from the module is shown by its name and written back as the same code
    when it is 0, 1 or 2, and as 2 otherwise; a name in the form is sent as
    its code and shown again as the same name when it is one of the three,
    and as the third otherwise. *)
Theorem direction_tables_round_trip :
  forall (code : Z) (name : string),
    dict_get String.eqb direction_codes
      (dict_get Z.eqb direction_names code "Approach & Away"%string) 0x02
    = (if (0 <=? code) && (code <=? 2) then code else 2)
    /\ dict_get Z.eqb direction_names
         (dict_get String.eqb direction_codes name 0x02)
         "Approach & Away"%string
       = (if existsb (fun k => String.eqb k name)
               ["Away Only"; "Approach Only"; "Approach & Away"]%string
          then name else "Approach & Away"%string).
Proof.
  intros code name. split.
  - cbn [dict_get direction_names].
    destruct (Z.eqb_spec 0 code) as [<-|H0]; [reflexivity|].
    destruct (Z.eqb_spec 1 code) as [<-|H1]; [reflexivity|].
    destruct (Z.eqb_spec 2 code) as [<-|H2]; [reflexivity|].
    destruct (Z.leb_spec 0 code); destruct (Z.leb_spec code 2);
      cbn [andb]; try reflexivity; lia.
  - cbn [dict_get direction_codes existsb].
    destruct (String.eqb_spec "Away Only" name) as [<-|H0]; [reflexivity|].
    destruct (String.eqb_spec "Approach Only" name) as [<-|H1];
      [reflexivity|].
    destruct (String.eqb_spec "Approach & Away" name) as [<-|H2];
      reflexivity.
Qed.

(** X13: the detection parameters survive the trip to the module and back.
    When the form packs to four argument bytes and shows one of the three
    direction names, an acknowledgment of the target parameters that carries
    those four bytes at offset 10 is parsed into one item which, once the
    interface has processed it, puts the same distance, direction, speed and
    delay back into the form, whatever the form showed in between, and leaves
    the sensitivity fields and the mode indicator alone. *)
Theorem detection_form_round_trip :
  forall (w w0 : form) (value frame : bytes) (g : gui),
    detection_value w = Returned value ->
    In (direction_var w)
       ["Away Only"; "Approach Only"; "Approach & Away"]%string ->
    startswith CONFIG_HEADER frame = true ->
    endswith CONFIG_TAIL frame = true ->
    16 <= len frame ->
    u16le_at frame 6 = CONFIG_ACK_TARGET_PARAMS ->
    slice frame 10 14 = value ->
    exists item message w1,
      parse_config_frame frame g
      = (Returned tt, record g [QueuePut item; QueuePut (log "info" message)])
      /\ update_gui_item item w0 = Some w1
      /\ max_dist_val w1 = max_dist_val w
      /\ direction_var w1 = direction_var w
      /\ min_speed_val w1 = min_speed_val w
      /\ target_delay_val w1 = target_delay_val w
      /\ trigger_count_val w1 = trigger_count_val w0
      /\ snr_val w1 = snr_val w0
      /\ config_status_label w1 = config_status_label w0.
Proof.
  intros w w0 value frame g Hval Hdir Hs He Hl Hcmd Hpay.
  unfold detection_value in Hval.
  apply pack_BBBB_inv in Hval as [Ha [Hb [Hc [Hd ->]]]].
  destruct (direction_name_of_code _ Hdir) as [Hname _].
  destruct (parse_four_byte_ack frame g _ _ _ _ Hs He Hl Hpay) as [Hrun _].
  do 3 eexists. split; [exact (Hrun Hcmd)|].
  split; [reflexivity|]. cbn [max_dist_val direction_var min_speed_val
                              target_delay_val trigger_count_val snr_val
                              config_status_label].
  rewrite !byte_val_byte_of by assumption.
  repeat split; try reflexivity. exact Hname.
Qed.

Lemma detection_form_round_trip_witness :
  let w := {| max_dist_val := 50; direction_var := "Approach Only";
              min_speed_val := 10; target_delay_val := 5;
              trigger_count_val := 3; snr_val := 4;
              config_status_label := "Config Mode: OFF" |} in
  let w0 := {| max_dist_val := 100; direction_var := "Approach & Away";
               min_speed_val := 0; target_delay_val := 0;
               trigger_count_val := 7; snr_val := 8;
               config_status_label := "Config Mode: ON" |} in
  let frame :=
    CONFIG_HEADER
    ++ [x08; x00; x12; x01; x00; x00; x32; x01; x0a; x05]
    ++ CONFIG_TAIL in
  let g := {| is_connected := true; serial_port := Some [];
              config_mode := false; trace := [] |} in
  exists item message w1,
    parse_config_frame frame g
    = (Returned tt, record g [QueuePut item; QueuePut (log "info" message)])
    /\ update_gui_item item w0 = Some w1
    /\ max_dist_val w1 = 50
    /\ direction_var w1 = "Approach Only"%string
    /\ min_speed_val w1 = 10
    /\ target_delay_val w1 = 5
    /\ trigger_count_val w1 = 7
    /\ snr_val w1 = 8
    /\ config_status_label w1 = "Config Mode: ON"%string.
Proof.
  cbv zeta.
  apply (detection_form_round_trip
           {| max_dist_val := 50; direction_var := "Approach Only";
              min_speed_val := 10; target_delay_val := 5;
              trigger_count_val := 3; snr_val := 4;
              config_status_label := "Config Mode: OFF" |}
           {| max_dist_val := 100; direction_var := "Approach & Away";
              min_speed_val := 0; target_delay_val := 0;
              trigger_count_val := 7; snr_val := 8;
              config_status_label := "Config Mode: ON" |}
           [x32; x01; x0a; x05]);
    try reflexivity.
  - right. left. reflexivity.
  - discriminate.
Defined.

(** X14: the sensitivity parameters survive the trip to the module and
    back.  The form packs to the trigger count, the signal-to-noise level
    and two zero bytes; an acknowledgment of the sensitivity that carries the
    first two of them at offsets 10 and 11, whatever the two bytes after
    them, is parsed into one item which puts the same trigger count and level
    back into the form and leaves the detection fields and the mode indicator
    alone. *)
Theorem sensitivity_form_round_trip :
  forall (w w0 : form) (value frame : bytes) (g : gui) (r1 r2 : byte),
    sensitivity_value w = Returned value ->
    startswith CONFIG_HEADER frame = true ->
    endswith CONFIG_TAIL frame = true ->
    16 <= len frame ->
    u16le_at frame 6 = CONFIG_ACK_SENSITIVITY ->
    slice frame 10 14 = firstn 2 value ++ [r1; r2] ->
    value = [byte_of (trigger_count_val w); byte_of (snr_val w); x00; x00]
    /\ exists item message w1,
         parse_config_frame frame g
         = (Returned tt,
            record g [QueuePut item; QueuePut (log "info" message)])
         /\ update_gui_item item w0 = Some w1
         /\ trigger_count_val w1 = trigger_count_val w
         /\ snr_val w1 = snr_val w
         /\ max_dist_val w1 = max_dist_val w0
         /\ direction_var w1 = direction_var w0
         /\ min_speed_val w1 = min_speed_val w0
         /\ target_delay_val w1 = target_delay_val w0
         /\ config_status_label w1 = config_status_label w0.
Proof.
  intros w w0 value frame g r1 r2 Hval Hs He Hl Hcmd Hpay.
  unfold sensitivity_value in Hval.
  apply pack_BBBB_inv in Hval as [Ha [Hb [_ [_ ->]]]].
  split; [reflexivity|]. cbn [firstn app] in Hpay.
  destruct (parse_four_byte_ack frame g _ _ _ _ Hs He Hl Hpay) as [_ Hrun].
  do 3 eexists. split; [exact (Hrun Hcmd)|].
  split; [reflexivity|]. cbn [max_dist_val direction_var min_speed_val
                              target_delay_val trigger_count_val snr_val
                              config_status_label].
  rewrite !byte_val_byte_of by assumption.
  repeat split; reflexivity.
Qed.

Lemma sensitivity_form_round_trip_witness :
  let w := {| max_dist_val := 50; direction_var := "Approach Only";
              min_speed_val := 10; target_delay_val := 5;
              trigger_count_val := 3; snr_val := 4;
              config_status_label := "Config Mode: OFF" |} in
  let frame :=
    CONFIG_HEADER
    ++ [x08; x00; x13; x01; x00; x00; x03; x04; x09; x09]
    ++ CONFIG_TAIL in
  let g := {| is_connected := true; serial_port := Some [];
              config_mode := false; trace := [] |} in
  [x03; x04; x00; x00]
  = [byte_of (trigger_count_val w); byte_of (snr_val w); x00; x00]
  /\ exists item message w1,
       parse_config_frame frame g
       = (Returned tt,
          record g [QueuePut item; QueuePut (log "info" message)])
       /\ update_gui_item item w = Some w1
       /\ trigger_count_val w1 = 3
       /\ snr_val w1 = 4
       /\ max_dist_val w1 = 50
       /\ direction_var w1 = "Approach Only"%string
       /\ min_speed_val w1 = 10
       /\ target_delay_val w1 = 5
       /\ config_status_label w1 = "Config Mode: OFF"%string.
Proof.
  cbv zeta.
  apply (sensitivity_form_round_trip
           {| max_dist_val := 50; direction_var := "Approach Only";
              min_speed_val := 10; target_delay_val := 5;
              trigger_count_val := 3; snr_val := 4;
              config_status_label := "Config Mode: OFF" |}
           {| max_dist_val := 50; direction_var := "Approach Only";
              min_speed_val := 10; target_delay_val := 5;
              trigger_count_val := 3; snr_val := 4;
              config_status_label := "Config Mode: OFF" |}
           [x03; x04; x00; x00] _ _ x09 x09);
    try reflexivity.
  discriminate.
Defined.

(** ** The two mode buttons *)

(** X15: the buttons for the config mode only send.  On a connected object
    whose port accepts every call, [enable_config_mode] hands the enable
    frame to the port and [disable_config_mode] the disable frame, one frame
    each, and neither changes the config mode flag.  The flag is set when the
    acknowledgment of the enable comes back through the parser. *)
Theorem mode_buttons_only_send :
  forall (g : gui) (n : nat) (ack : bytes),
    is_connected g = true ->
    serial_port g = Some (repeat io_ok n) ->
    startswith CONFIG_HEADER ack = true ->
    endswith CONFIG_TAIL ack = true ->
    12 <= len ack ->
    u16le_at ack 6 = CONFIG_CMD_ENABLE_ACK ->
    exists g1 g2,
      enable_config_mode g = (Returned tt, g1)
      /\ writes_of (trace g1) = writes_of (trace g) ++ [enable_frame]
      /\ config_mode g1 = config_mode g
      /\ disable_config_mode g = (Returned tt, g2)
      /\ writes_of (trace g2) = writes_of (trace g) ++ [disable_frame]
      /\ config_mode g2 = config_mode g
      /\ config_mode (snd (parse_config_frame ack g1)) = true.
Proof.
  intros [c p m t] n ack Hc Hp Hs He Hl Hcmd.
  cbn [is_connected serial_port trace config_mode] in *. subst c p.
  assert (Hbuttons :
            exists g1 g2,
              enable_config_mode
                {| is_connected := true; serial_port := Some (repeat io_ok n);
                   config_mode := m; trace := t |} = (Returned tt, g1)
              /\ writes_of (trace g1) = writes_of t ++ [enable_frame]
              /\ config_mode g1 = m
              /\ disable_config_mode
                   {| is_connected := true;
                      serial_port := Some (repeat io_ok n);
                      config_mode := m; trace := t |} = (Returned tt, g2)
              /\ writes_of (trace g2) = writes_of t ++ [disable_frame]
              /\ config_mode g2 = m).
  { unfold enable_config_mode, disable_config_mode, bind, lift, pack_H.
    do 2 (destruct n as [|n];
          [run_sender; do 2 eexists;
           split; [reflexivity|]; close_writes;
           split; [reflexivity|]; split; [reflexivity|];
           split; [reflexivity|]; close_writes;
           split; reflexivity|]).
    run_sender; do 2 eexists.
    split; [reflexivity|]; close_writes.
    split; [reflexivity|]; split; [reflexivity|].
    split; [reflexivity|]; close_writes.
    split; reflexivity. }
  destruct Hbuttons as [g1 [g2 [H1 [H2 [H3 [H4 [H5 H6]]]]]]].
  exists g1, g2. repeat (split; [assumption|]).
  destruct (parse_config_frame_valid ack g1 Hs He Hl)
    as [es [m' [Hrun [Hm _]]]].
  rewrite Hrun. cbn [snd config_mode]. rewrite Hm, Hcmd. reflexivity.
Qed.

Lemma mode_buttons_only_send_witness :
  let g := {| is_connected := true; serial_port := Some [];
              config_mode := false; trace := [] |} in
  exists g1 g2,
    enable_config_mode g = (Returned tt, g1)
    /\ writes_of (trace g1) = [] ++ [enable_frame]
    /\ config_mode g1 = false
    /\ disable_config_mode g = (Returned tt, g2)
    /\ writes_of (trace g2) = [] ++ [disable_frame]
    /\ config_mode g2 = false
    /\ config_mode
         (snd (parse_config_frame
                 (CONFIG_HEADER ++ [x08; x00; xff; x01; x00; x00; x01; x00;
                                    x40; x00] ++ CONFIG_TAIL) g1)) = true.
Proof.
  cbv zeta.
  apply (mode_buttons_only_send
           {| is_connected := true; serial_port := Some [];
              config_mode := false; trace := [] |} 0%nat);
    try reflexivity.
  discriminate.
Defined.

(** ** The hexadecimal text of a frame *)

Lemma byte_val_inj (x y : byte) : byte_val x = byte_val y -> x = y.
Proof.
  unfold byte_val. intros H. apply N2Z.inj in H.
  pose proof (Byte.of_to_N x) as Hx. pose proof (Byte.of_to_N y) as Hy.
  rewrite H in Hx. congruence.
Qed.

Lemma format_02X_two (v : Z) :
  exists a b, format_02X v = String a (String b EmptyString).
Proof.
  unfold format_02X.
  destruct (hex_digit_single (v / 16)) as [a ->].
  destruct (hex_digit_single (v mod 16)) as [b ->].
  exists a, b. reflexivity.
Qed.

Lemma format_02X_inj (v1 v2 : Z) :
  0 <= v1 < 256 -> 0 <= v2 < 256 ->
  format_02X v1 = format_02X v2 -> v1 = v2.
Proof.
  intros H1 H2 E. unfold format_02X in E.
  assert (D : hex_digit (v1 / 16) = hex_digit (v2 / 16)
              /\ hex_digit (v1 mod 16) = hex_digit (v2 mod 16)).
  { destruct (hex_digit_single (v1 / 16)) as [a1 A1].
    destruct (hex_digit_single (v1 mod 16)) as [a2 A2].
    destruct (hex_digit_single (v2 / 16)) as [b1 B1].
    destruct (hex_digit_single (v2 mod 16)) as [b2 B2].
    rewrite A1, A2, B1, B2 in *. cbn in E. injection E as -> ->. auto. }
  destruct D as [D1 D2].
  apply hex_digit_inj in D1, D2;
    try (apply Z.mod_pos_bound; lia);
    try (split; [apply Z.div_pos | apply Z.div_lt_upper_bound]; lia).
  pose proof (Z.div_mod v1 16 ltac:(lia)).
  pose proof (Z.div_mod v2 16 ltac:(lia)). lia.
Qed.

Lemma format_hex_shape (x : byte) (l : bytes) :
  exists a b,
    format_02X (byte_val x) = String a (String b EmptyString)
    /\ format_hex (x :: l)
       = String a
           (String b
              (match l with
               | [] => EmptyString
               | _ :: _ => String " " (format_hex l)
               end)).
Proof.
  destruct (format_02X_two (byte_val x)) as [a [b E]].
  exists a, b. split; [exact E|].
  destruct l as [|y l]; unfold format_hex; cbn [map String.concat];
    rewrite E; reflexivity.
Qed.

(** X16: the hexadecimal text of the sent and received records says exactly
    which bytes they were: two different byte strings never have the same
    text, and the text of [n] bytes has two characters for each byte and one
    space between neighbours, [3 n - 1] characters in all (none for no
    bytes). *)
Theorem format_hex_determines_bytes :
  forall (data1 data2 : bytes),
    format_hex data1 = format_hex data2 ->
    data1 = data2
    /\ String.length (format_hex data1) = (3 * length data1 - 1)%nat.
Proof.
  intros data1 data2 E0. split.
  - revert data2 E0. induction data1 as [|x l1 IH]; intros [|y l2] E.
    + reflexivity.
    + destruct (format_hex_shape y l2) as [a [b [_ Hy]]].
      rewrite Hy in E. discriminate E.
    + destruct (format_hex_shape x l1) as [a [b [_ Hx]]].
      rewrite Hx in E. discriminate E.
    + destruct (format_hex_shape x l1) as [a [b [Ex Hx]]].
      destruct (format_hex_shape y l2) as [a' [b' [Ey Hy]]].
      rewrite Hx, Hy in E. injection E as -> -> Erest.
      assert (x = y).
      { apply byte_val_inj.
        apply format_02X_inj; try apply byte_val_range. congruence. }
      subst y. f_equal.
      destruct l1 as [|x1 l1]; destruct l2 as [|y1 l2];
        try discriminate Erest; [reflexivity|].
      injection Erest as Erest. apply IH. exact Erest.
  - clear E0. induction data1 as [|x l1 IH]; [reflexivity|].
    destruct (format_hex_shape x l1) as [a [b [_ Hx]]]. rewrite Hx.
    destruct l1 as [|x1 l1]; [reflexivity|].
    cbn [String.length]. rewrite IH. cbn [length]. lia.
Qed.

Lemma format_hex_determines_bytes_witness :
  [xfd; xfc; x0a] = [xfd; xfc; x0a]
  /\ String.length (format_hex [xfd; xfc; x0a]) = 8%nat.
Proof.
  apply (format_hex_determines_bytes [xfd; xfc; x0a] [xfd; xfc; x0a]).
  reflexivity.
Defined.

(** ** The length field *)

Lemma endswith_app_body (t pre body : bytes) :
  (length t <= length body)%nat ->
  endswith t (pre ++ body) = endswith t body.
Proof.
  intros H. unfold endswith. rewrite length_app.
  replace (length pre + length body - length t)%nat
    with (length pre + (length body - length t))%nat by lia.
  rewrite skipn_app, skipn_all2 by lia.
  replace (length pre + (length body - length t) - length pre)%nat
    with (length body - length t)%nat by lia.
  cbn [app].
  replace (length t <=? length pre + length body)%nat with true
    by (symmetry; apply Nat.leb_le; lia).
  replace (length t <=? length body)%nat with true
    by (symmetry; apply Nat.leb_le; lia).
  reflexivity.
Qed.

(** X17: the parsers never look at the length field.  Two frames of the
    same family that differ only in the two bytes after the header, and have
    at least four bytes after those, are parsed to exactly the same result:
    a length field that disagrees with the frame is neither noticed nor
    reported. *)
Theorem length_field_ignored :
  forall (l0 l1 m0 m1 : byte) (body : bytes) (g : gui),
    (4 <= length body)%nat ->
    parse_target_frame (TARGET_FRAME_HEADER ++ [l0; l1] ++ body) g
    = parse_target_frame (TARGET_FRAME_HEADER ++ [m0; m1] ++ body) g
    /\ parse_config_frame (CONFIG_HEADER ++ [l0; l1] ++ body) g
       = parse_config_frame (CONFIG_HEADER ++ [m0; m1] ++ body) g.
Proof.
  intros l0 l1 m0 m1 body g Hbody. split.
  - set (F1 := TARGET_FRAME_HEADER ++ [l0; l1] ++ body).
    set (F2 := TARGET_FRAME_HEADER ++ [m0; m1] ++ body).
    assert (Hs1 : startswith TARGET_FRAME_HEADER F1 = true)
      by apply startswith_app.
    assert (Hs2 : startswith TARGET_FRAME_HEADER F2 = true)
      by apply startswith_app.
    assert (He : endswith TARGET_FRAME_TAIL F1
                 = endswith TARGET_FRAME_TAIL F2).
    { subst F1 F2. rewrite !app_assoc.
      rewrite !endswith_app_body by exact Hbody. reflexivity. }
    assert (Hlen : len F1 = len F2) by reflexivity.
    destruct (endswith TARGET_FRAME_TAIL F2) eqn:He2.
    + destruct (Z.lt_ge_cases (len F2) 12) as [Hlt|Hge].
      * unfold parse_target_frame, try_except.
        rewrite Hs1, Hs2, He, He2, Hlen. cbn [negb orb].
        destruct (Z.ltb_spec (len F2) 12); [reflexivity | lia].
      * rewrite (parse_target_frame_valid F1 g Hs1 He ltac:(lia)).
        rewrite (parse_target_frame_valid F2 g Hs2 He2 Hge).
        assert (Hn : forall k, nth (6 + k) F1 x00 = nth (6 + k) F2 x00)
          by (intros k; reflexivity).
        assert (Hu : forall k, u8_at F1 (6 + k) = u8_at F2 (6 + k))
          by (intros k; unfold u8_at; now rewrite Hn).
        assert (Hc : complete_records F1 = complete_records F2)
          by reflexivity.
        rewrite Hc. rewrite (Hu 0%nat : u8_at F1 6 = u8_at F2 6).
        reflexivity.
    + unfold parse_target_frame, try_except.
      rewrite Hs1, Hs2, He, He2. reflexivity.
  - set (F1 := CONFIG_HEADER ++ [l0; l1] ++ body).
    set (F2 := CONFIG_HEADER ++ [m0; m1] ++ body).
    assert (Hs1 : startswith CONFIG_HEADER F1 = true) by apply startswith_app.
    assert (Hs2 : startswith CONFIG_HEADER F2 = true) by apply startswith_app.
    assert (He : endswith CONFIG_TAIL F1 = endswith CONFIG_TAIL F2).
    { subst F1 F2. rewrite !app_assoc.
      rewrite !endswith_app_body by exact Hbody. reflexivity. }
    assert (Hlen : len F1 = len F2) by reflexivity.
    assert (H68 : slice F1 6 8 = slice F2 6 8) by reflexivity.
    assert (H1014 : slice F1 10 14 = slice F2 10 14) by reflexivity.
    assert (H1012 : slice F1 10 12 = slice F2 10 12) by reflexivity.
    unfold parse_config_frame.
    rewrite Hs1, Hs2, He, Hlen, H68, H1014, H1012. reflexivity.
Qed.

Lemma length_field_ignored_witness :
  parse_target_frame
    (TARGET_FRAME_HEADER
     ++ [x07; x00] ++ [x01; x00; x80; x0a; x01; x1e; x05; xf8; xf7; xf6; xf5])
    {| is_connected := true; serial_port := Some [];
       config_mode := false; trace := [] |}
  = parse_target_frame
      (TARGET_FRAME_HEADER
       ++ [xff; xff] ++ [x01; x00; x80; x0a; x01; x1e; x05; xf8; xf7; xf6; xf5])
      {| is_connected := true; serial_port := Some [];
         config_mode := false; trace := [] |}
  /\ parse_config_frame
       (CONFIG_HEADER
        ++ [x07; x00]
        ++ [x01; x00; x80; x0a; x01; x1e; x05; xf8; xf7; xf6; xf5])
       {| is_connected := true; serial_port := Some [];
          config_mode := false; trace := [] |}
     = parse_config_frame
         (CONFIG_HEADER
          ++ [xff; xff]
          ++ [x01; x00; x80; x0a; x01; x1e; x05; xf8; xf7; xf6; xf5])
         {| is_connected := true; serial_port := Some [];
            config_mode := false; trace := [] |}.
Proof.
  apply (length_field_ignored x07 x00 xff xff
           [x01; x00; x80; x0a; x01; x1e; x05; xf8; xf7; xf6; xf5]).
  cbn [length]. lia.
Defined.
